(** * Inventory application: the Category workflow handlers

    A shallow embedding of [controllers/categoryController.js] together with
    the Category schema of [models/category.js], and the properties of the
    create / read / update / delete workflow proved over it.

    Scope of the model.
    - Strings are [string]s of 8-bit characters, read as ASCII text.  The
      whitespace class of [trim] and the case folding of the collation are
      the ASCII parts of what validator.js and the database implement.
    - A request body carries both form fields as strings.
    - The two collections live in an explicit state that every handler
      threads; the calls a handler makes on [res] and [next] are appended to
      a log kept in the same state.
    - The handlers are given first over a path parameter that has been
      cast to an ObjectId, and then, in [Http], over the text of the path
      parameter and a response that knows whether it has been sent. *)

From Stdlib Require Import List String Ascii NArith ZArith Bool Arith Lia.
From Stdlib Require QArith_base.
Import ListNotations.

Local Open Scope string_scope.
Local Open Scope list_scope.

(* ================================================================= *)
(** ** Strings *)

(** Character-wise image of a string. *)
Fixpoint smap (f : ascii -> ascii) (s : string) : string :=
  match s with
  | EmptyString => EmptyString
  | String c s' => String (f c) (smap f s')
  end.

(** [n] copies of the character [c]. *)
Fixpoint repeat_char (c : ascii) (n : nat) : string :=
  match n with
  | O => EmptyString
  | S n' => String c (repeat_char c n')
  end.

(* ================================================================= *)
(** ** validator.js: the sanitizers and the validator the chains use *)

Module Validator.

(** The ASCII members of the regular expression class [\s]. *)
Definition is_space (c : ascii) : bool :=
  match nat_of_ascii c with
  | 9 | 10 | 11 | 12 | 13 | 32 => true
  | _ => false
  end.

(** [ltrim(str)]: [str.replace(/^\s+/g, '')]. *)
Fixpoint ltrim (s : string) : string :=
  match s with
  | EmptyString => EmptyString
  | String c s' => if is_space c then ltrim s' else s
  end.

(** [rtrim(str)]: the index walks back from the end while the character
    under it is whitespace; the prefix up to it is kept. *)
Fixpoint rtrim (s : string) : string :=
  match s with
  | EmptyString => EmptyString
  | String c s' =>
      match rtrim s' with
      | EmptyString => if is_space c then EmptyString else String c EmptyString
      | t => String c t
      end
  end.

(** [trim(str)] is [rtrim(ltrim(str))]. *)
Definition trim (s : string) : string := rtrim (ltrim s).

(** [str.replace(/c/g, by)] for a single character [c]. *)
Fixpoint replace_all (c : ascii) (by_ : string) (s : string) : string :=
  match s with
  | EmptyString => EmptyString
  | String x s' =>
      if Ascii.eqb x c then by_ ++ replace_all c by_ s'
      else String x (replace_all c by_ s')
  end.

Definition amp : ascii := "&"%char.
Definition dquote : ascii := ascii_of_nat 34.
Definition squote : ascii := "'"%char.
Definition lt : ascii := "<"%char.
Definition gt : ascii := ">"%char.
Definition slash : ascii := "/"%char.
Definition backslash : ascii := ascii_of_nat 92.
Definition backtick : ascii := "`"%char.

(** [escape(str)]: eight replacements, the ampersand first. *)
Definition escape (s : string) : string :=
  replace_all backtick "&#96;"
    (replace_all backslash "&#x5C;"
      (replace_all slash "&#x2F;"
        (replace_all gt "&gt;"
          (replace_all lt "&lt;"
            (replace_all squote "&#x27;"
              (replace_all dquote "&quot;"
                (replace_all amp "&amp;" s))))))).

(** [isLength(str, { min, max })]; [max] may be left undefined. *)
Definition isLength (min : nat) (max : option nat) (s : string) : bool :=
  (min <=? String.length s)%nat &&
  match max with
  | None => true
  | Some m => (String.length s <=? m)%nat
  end.

End Validator.

(* ================================================================= *)
(** ** express-validator: field chains over the request body *)

(** The form fields of a Category submission ([req.body]). *)
Record Body := mkBody {
  body_name : string;
  body_description : string
}.

(** One entry of [errors.array()]. *)
Record FieldError := mkFieldError {
  err_path : string;
  err_msg : string;
  err_value : string
}.

(** [body(path, msg).trim().isLength({ min: 1 }).escape()] run on one field:
    the sanitizers always run, the validator looks at the trimmed value and
    reports [msg] when it fails.  The result is the value left in
    [req.body] and the errors recorded for the field. *)
Definition required_chain (path msg raw : string) : string * list FieldError :=
  let trimmed := Validator.trim raw in
  let errs :=
    if Validator.isLength 1 None trimmed then []
    else [mkFieldError path msg trimmed] in
  (Validator.escape trimmed, errs).

(** The two chains that precede the create and the update handler: the
    sanitized body and [validationResult(req)]. *)
Definition name_chain (b : Body) : string * list FieldError :=
  required_chain "name" "Category name required" (body_name b).

Definition description_chain (b : Body) : string * list FieldError :=
  required_chain "description" "Category description required"
    (body_description b).

Definition sanitized (b : Body) : Body :=
  mkBody (fst (name_chain b)) (fst (description_chain b)).

Definition validationResult (b : Body) : list FieldError :=
  snd (name_chain b) ++ snd (description_chain b).

(** [errors.isEmpty()] *)
Definition isEmpty (errors : list FieldError) : bool :=
  match errors with [] => true | _ => false end.

(* ================================================================= *)
(** ** ObjectId *)

Module ObjectId.

(** A 12-byte identifier, as a number. *)
Definition t := N.

Definition eqb (a b : t) : bool := N.eqb a b.

Definition hex_digit (d : N) : ascii :=
  match d with
  | 0%N => "0" | 1%N => "1" | 2%N => "2" | 3%N => "3"
  | 4%N => "4" | 5%N => "5" | 6%N => "6" | 7%N => "7"
  | 8%N => "8" | 9%N => "9" | 10%N => "a" | 11%N => "b"
  | 12%N => "c" | 13%N => "d" | 14%N => "e" | _ => "f"
  end%char.

Fixpoint hex_digits (k : nat) (n : N) (acc : string) : string :=
  match k with
  | O => acc
  | S k' => hex_digits k' (N.div n 16) (String (hex_digit (N.modulo n 16)) acc)
  end.

(** The 24 hexadecimal digits a template literal prints for an id. *)
Definition toString (n : t) : string := hex_digits 24 n EmptyString.

(** The identifier a document constructor generates: one that no stored
    document of the collection carries. *)
Definition fresh (used : list t) : t := N.succ (fold_right N.max 0%N used).

(** The value of a hexadecimal digit, in either case. *)
Definition hex_value (c : ascii) : option N :=
  let n := nat_of_ascii c in
  if (48 <=? n)%nat && (n <=? 57)%nat then Some (N.of_nat (n - 48))
  else if (97 <=? n)%nat && (n <=? 102)%nat then Some (N.of_nat (n - 87))
  else if (65 <=? n)%nat && (n <=? 70)%nat then Some (N.of_nat (n - 55))
  else None.

Fixpoint parse_hex (s : string) (acc : N) : option N :=
  match s with
  | EmptyString => Some acc
  | String c s' =>
      match hex_value c with
      | Some d => parse_hex s' (16 * acc + d)%N
      | None => None
      end
  end.

(** Casting the text of a path segment to an ObjectId: the text casts when
    it is 24 hexadecimal digits. *)
Definition cast (s : string) : option t :=
  if (String.length s =? 24)%nat then parse_hex s 0%N else None.

End ObjectId.

(* ================================================================= *)
(** ** Documents *)

(** A Category document ([models/category.js]). *)
Record CategoryDoc := mkCategory {
  cat_id : ObjectId.t;
  cat_name : string;
  cat_description : string
}.

(** Modelled from the spec: the Item schema ([models/item.js] is not among
    the sources).  An Item has a name, a description, a non-negative price,
    a non-negative stock count, a reference to one Category and an optional
    image reference. *)
Record ItemDoc := mkItem {
  item_id : ObjectId.t;
  item_name : string;
  item_description : string;
  item_price : QArith_base.Q;
  item_stock : N;
  item_category : ObjectId.t;
  item_image : option string
}.

(** What a query with the projection ['name description price stock']
    returns of an Item: the listed fields and the identifier. *)
Record ItemFields := mkItemFields {
  sel_id : ObjectId.t;
  sel_name : string;
  sel_description : string;
  sel_price : QArith_base.Q;
  sel_stock : N
}.

(* ================================================================= *)
(** ** Collation [{ locale: 'en', strength: 2 }] *)

Module Collation.

Definition is_upper (c : ascii) : bool :=
  (65 <=? nat_of_ascii c)%nat && (nat_of_ascii c <=? 90)%nat.

Definition fold_char (c : ascii) : ascii :=
  if is_upper c then ascii_of_nat (nat_of_ascii c + 32) else c.

(** Case folding of ASCII letters. *)
Definition fold (s : string) : string := smap fold_char s.

(** Two strings are equal at strength 2 when they differ in case only. *)
Definition eqb (a b : string) : bool := String.eqb (fold a) (fold b).

End Collation.

(* ================================================================= *)
(** ** Errors, responses and the state a handler runs in *)

Inductive Error :=
| HttpError (message : string) (status : nat)
    (** [new Error(message)] with [err.status] set *)
| MongooseValidationError (paths : list string)
    (** a document rejected by its schema on [save()] *)
| DuplicateKeyError (id : ObjectId.t)
    (** an insert whose [_id] is already in the collection *)
| ImmutableFieldError (id : ObjectId.t)
    (** an update that would change the [_id] of the matched document *)
| CastError (value : string)
    (** a query given, for an ObjectId path, a text that does not cast *)
| HeadersSentError.
    (** a page rendered for a response that has already been sent *)

(** Values handed to a view. *)
Inductive Value :=
| VString (s : string)
| VNumber (n : nat)
| VNull
| VCategory (c : CategoryDoc)
| VCategories (l : list CategoryDoc)
| VItems (l : list ItemDoc)
| VItemFields (l : list ItemFields)
| VErrors (l : list FieldError)
| VDraft (name description : string).
    (** a document built with an [_id] that does not cast: its fields *)

(** The object literal passed to [res.render]. *)
Definition Locals := list (string * Value).

(** The calls a handler makes on [res] and [next], in order. *)
Inductive ResCall :=
| ResRender (view : string) (locals : Locals)
| ResRedirect (url : string)
| ResNext (err : Error).

Record State := mkState {
  categories : list CategoryDoc;
  items : list ItemDoc;
  calls : list ResCall
}.

Definition set_categories (l : list CategoryDoc) (s : State) : State :=
  mkState l (items s) (calls s).

Definition log_call (c : ResCall) (s : State) : State :=
  mkState (categories s) (items s) (calls s ++ [c]).

(** An awaited computation: it resolves to a value or rejects with an error,
    and leaves a state behind. *)
Inductive result (A : Type) :=
| Resolved (a : A)
| Rejected (e : Error).

Arguments Resolved {A} a.
Arguments Rejected {A} e.

Definition Async (A : Type) : Type := State -> result A * State.

Definition ret {A} (a : A) : Async A := fun s => (Resolved a, s).

Definition bind {A B} (m : Async A) (k : A -> Async B) : Async B :=
  fun s =>
    match m s with
    | (Resolved a, s') => k a s'
    | (Rejected e, s') => (Rejected e, s')
    end.

Definition throw {A} (e : Error) : Async A := fun s => (Rejected e, s).

Notation "x <- m ;; k" := (bind m (fun x => k))
  (at level 61, m at next level, right associativity).
Notation "m ;;; k" := (bind m (fun _ => k))
  (at level 61, right associativity).

(** [await Promise.all([a, b])]: both results, as a pair. *)
Definition Promise_all {A B} (a : Async A) (b : Async B) : Async (A * B) :=
  x <- a ;; y <- b ;; ret (x, y).

(** [res.render] and [res.redirect] on a response that has not been sent;
    [Http.render] and [Http.redirect] look at the response first. *)
Definition res_render (view : string) (locals : Locals) : Async unit :=
  fun s => (Resolved tt, log_call (ResRender view locals) s).

Definition res_redirect (url : string) : Async unit :=
  fun s => (Resolved tt, log_call (ResRedirect url) s).

Definition next (err : Error) : Async unit :=
  fun s => (Resolved tt, log_call (ResNext err) s).

(** [asyncHandler(fn)]: a rejection of [fn] is passed to [next]. *)
Definition asyncHandler (fn : Async unit) : State -> State :=
  fun s =>
    match fn s with
    | (Resolved _, s') => s'
    | (Rejected e, s') => log_call (ResNext e) s'
    end.

Notation "' pat <- m ;; k" :=
  (bind m (fun x => match x with pat => k end))
  (at level 61, pat pattern, m at next level, right associativity).

(* ================================================================= *)
(** ** The Category model *)

Module Category.

(** [maxLength: 100], on both paths of the schema. *)
Definition maxLength : nat := 100.

(** A path declared [{ type: String, required: true, maxLength: 100 }]
    accepts a string that is not empty and not longer than the maximum. *)
Definition path_ok (v : string) : bool :=
  (1 <=? String.length v)%nat && (String.length v <=? maxLength)%nat.

(** The paths of a document that fail the schema's validators. *)
Definition invalid_paths (c : CategoryDoc) : list string :=
  (if path_ok (cat_name c) then [] else ["name"]) ++
  (if path_ok (cat_description c) then [] else ["description"]).

(** The virtual [url]. *)
Definition url (c : CategoryDoc) : string :=
  "/category/" ++ ObjectId.toString (cat_id c).

(** [new Category({ name, description })]: the constructor generates the
    identifier. *)
Definition new (name description : string) : Async CategoryDoc :=
  fun s =>
    (Resolved (mkCategory (ObjectId.fresh (map cat_id (categories s)))
                 name description), s).

(** [new Category({ name, description, _id })] *)
Definition new_with_id (name description : string) (id : ObjectId.t)
  : Async CategoryDoc :=
  ret (mkCategory id name description).

Definition has_id (id : ObjectId.t) (c : CategoryDoc) : bool :=
  ObjectId.eqb (cat_id c) id.

Definition lookup (id : ObjectId.t) (l : list CategoryDoc)
  : option CategoryDoc :=
  List.find (has_id id) l.

(** [Category.findById(id).exec()], given the id the path text has cast
    to; [Http.findById] is the query on the text itself. *)
Definition findById (id : ObjectId.t) : Async (option CategoryDoc) :=
  fun s => (Resolved (lookup id (categories s)), s).

(** [Category.find({}).exec()] *)
Definition find : Async (list CategoryDoc) :=
  fun s => (Resolved (categories s), s).

(** [Category.countDocuments({}).exec()] *)
Definition countDocuments : Async nat :=
  fun s => (Resolved (List.length (categories s)), s).

Definition same_name (name : string) (c : CategoryDoc) : bool :=
  Collation.eqb (cat_name c) name.

(** [Category.findOne({ name }).collation({ locale: 'en', strength: 2 })]:
    the first stored document whose name equals [name] up to case. *)
Definition findOne (name : string) : Async (option CategoryDoc) :=
  fun s => (Resolved (List.find (same_name name) (categories s)), s).

(** [category.save()] of a new document: the schema's validators run
    first; the insert is refused when the identifier is taken. *)
Definition save (c : CategoryDoc) : Async unit :=
  fun s =>
    match invalid_paths c with
    | [] =>
        match lookup (cat_id c) (categories s) with
        | None => (Resolved tt, set_categories (categories s ++ [c]) s)
        | Some _ => (Rejected (DuplicateKeyError (cat_id c)), s)
        end
    | paths => (Rejected (MongooseValidationError paths), s)
    end.

Fixpoint remove_first (id : ObjectId.t) (l : list CategoryDoc)
  : list CategoryDoc :=
  match l with
  | [] => []
  | c :: l' => if has_id id c then l' else c :: remove_first id l'
  end.

(** [Category.findByIdAndDelete(id)]: removes the document with that
    identifier, when there is one. *)
Definition findByIdAndDelete (id : ObjectId.t) : Async (option CategoryDoc) :=
  fun s =>
    (Resolved (lookup id (categories s)),
     set_categories (remove_first id (categories s)) s).

Fixpoint update_first (id : ObjectId.t) (upd : CategoryDoc)
  (l : list CategoryDoc) : list CategoryDoc :=
  match l with
  | [] => []
  | c :: l' =>
      if has_id id c
      then mkCategory (cat_id c) (cat_name upd) (cat_description upd) :: l'
      else c :: update_first id upd l'
  end.

(** [Category.findByIdAndUpdate(id, upd).exec()]: the fields of [upd] are
    set on the document with that identifier, when there is one.  The
    schema's validators are not run.  An [_id] in [upd] that differs from
    the matched document's is refused by the database. *)
Definition findByIdAndUpdate (id : ObjectId.t) (upd : CategoryDoc)
  : Async (option CategoryDoc) :=
  fun s =>
    match lookup id (categories s) with
    | None => (Resolved None, s)
    | Some old =>
        if ObjectId.eqb (cat_id upd) (cat_id old)
        then (Resolved (Some old),
              set_categories (update_first id upd (categories s)) s)
        else (Rejected (ImmutableFieldError (cat_id old)), s)
    end.

End Category.

(* ================================================================= *)
(** ** The Item model *)

Module Item.

Definition in_category (id : ObjectId.t) (i : ItemDoc) : bool :=
  ObjectId.eqb (item_category i) id.

Definition select (i : ItemDoc) : ItemFields :=
  mkItemFields (item_id i) (item_name i) (item_description i)
    (item_price i) (item_stock i).

(** [Item.find({ category: id }).exec()], given an id that has cast. *)
Definition find (id : ObjectId.t) : Async (list ItemDoc) :=
  fun s => (Resolved (List.filter (in_category id) (items s)), s).

(** [Item.find({ category: id }, 'name description price stock').exec()] *)
Definition find_select (id : ObjectId.t) : Async (list ItemFields) :=
  fun s =>
    (Resolved (List.map select (List.filter (in_category id) (items s))), s).

(** [Item.countDocuments({}).exec()] *)
Definition countDocuments : Async nat :=
  fun s => (Resolved (List.length (items s)), s).

End Item.

(* ================================================================= *)
(** ** The handlers *)

Record Request := mkRequest {
  params_id : ObjectId.t;
  body : Body
}.

(** The validation chains that stand before a handler in its middleware
    array: they leave the sanitized fields in [req.body] and the errors for
    [validationResult(req)]. *)
Definition run_chains (req : Request) : Request * list FieldError :=
  (mkRequest (params_id req) (sanitized (body req)),
   validationResult (body req)).

(** A document or [null], as a view receives it. *)
Definition category_or_null (c : option CategoryDoc) : Value :=
  match c with
  | Some d => VCategory d
  | None => VNull
  end.

(** Display home page. *)
Definition index (req : Request) : State -> State :=
  asyncHandler (
    '(numItems, numCategories) <-
      Promise_all Item.countDocuments Category.countDocuments ;;
    res_render "index"
      [("title", VString "Inventory App - Home");
       ("item_count", VNumber numItems);
       ("category_count", VNumber numCategories)]).

(** Display list of all Categories. *)
Definition category_list (req : Request) : State -> State :=
  asyncHandler (
    allCategories <- Category.find ;;
    res_render "category_list"
      [("title", VString "Category List");
       ("category_list", VCategories allCategories)]).

(** Display detail page for a specific Category. *)
Definition category_detail (req : Request) : State -> State :=
  asyncHandler (
    '(category, itemsInCategory) <-
      Promise_all (Category.findById (params_id req))
                  (Item.find_select (params_id req)) ;;
    match category with
    | None => next (HttpError "Category not found" 404)
    | Some c =>
        res_render "category_detail"
          [("title", VString "Category Detail");
           ("category", VCategory c);
           ("category_items", VItemFields itemsInCategory)]
    end).

(** Display Category create form on GET. *)
Definition category_create_get (req : Request) : State -> State :=
  asyncHandler (
    res_render "category_form" [("title", VString "Create Category")]).

(** Handle Category create on POST. *)
Definition category_create_post (req0 : Request) : State -> State :=
  let (req, errors) := run_chains req0 in
  asyncHandler (
    category <- Category.new (body_name (body req))
                             (body_description (body req)) ;;
    if negb (isEmpty errors) then
      res_render "category_form"
        [("title", VString "Create Category");
         ("category", VCategory category);
         ("errors", VErrors errors)]
    else
      categoryExists <- Category.findOne (body_name (body req)) ;;
      match categoryExists with
      | Some existing => res_redirect (Category.url existing)
      | None =>
          Category.save category ;;;
          res_redirect (Category.url category)
      end).

(** Display Category delete form on GET.  The branch for a missing
    Category has no [return]: control goes on to [res.render]. *)
Definition category_delete_get (req : Request) : State -> State :=
  asyncHandler (
    '(category, itemsInCategory) <-
      Promise_all (Category.findById (params_id req))
                  (Item.find (params_id req)) ;;
    (match category with
     | None => res_redirect "/categories"
     | Some _ => ret tt
     end) ;;;
    res_render "category_delete"
      [("title", VString "Delete Category");
       ("category", category_or_null category);
       ("category_items", VItems itemsInCategory)]).

(** Handle Category delete on POST. *)
Definition category_delete_post (req : Request) : State -> State :=
  asyncHandler (
    '(category, itemsInCategory) <-
      Promise_all (Category.findById (params_id req))
                  (Item.find (params_id req)) ;;
    if (0 <? List.length itemsInCategory)%nat then
      res_render "category_delete"
        [("title", VString "Delete Category");
         ("category", category_or_null category);
         ("category_items", VItems itemsInCategory)]
    else
      Category.findByIdAndDelete (params_id req) ;;;
      res_redirect "/categories").

(** Display Category update form on GET. *)
Definition category_update_get (req : Request) : State -> State :=
  asyncHandler (
    category <- Category.findById (params_id req) ;;
    match category with
    | None => next (HttpError "Category not found" 404)
    | Some c =>
        res_render "category_form"
          [("title", VString "Update Category"); ("category", VCategory c)]
    end).

(** Handle Category update on POST. *)
Definition category_update_post (req0 : Request) : State -> State :=
  let (req, errors) := run_chains req0 in
  asyncHandler (
    category <- Category.new_with_id (body_name (body req))
                  (body_description (body req)) (params_id req) ;;
    if negb (isEmpty errors) then
      res_render "category_form"
        [("title", VString "Update Category");
         ("category", VCategory category);
         ("errors", VErrors errors)]
    else
      Category.findByIdAndUpdate (params_id req) category ;;;
      res_redirect (Category.url category)).

(* ================================================================= *)
(** ** The handlers on the request as Express hands it over *)

(** [req.params.id] is the text of a path segment, and Mongoose casts it
    wherever a query takes it: a text that does not cast makes the query
    reject with a CastError.  A response object knows whether it has been
    sent.  The handlers that take an id are embedded here once more with
    both made explicit; on a text that casts, and on a response not yet
    sent, they are the handlers above ([Bridge] lemmas below). *)

Module Http.

Record Request := mkRequest {
  params_id : string;
  body : Body
}.

(** A response object: the place in the log where its calls begin. *)
Definition Response := nat.

Definition is_send (c : ResCall) : bool :=
  match c with
  | ResRender _ _ | ResRedirect _ => true
  | ResNext _ => false
  end.

(** [res.headersSent] *)
Definition headersSent (res : Response) (s : State) : bool :=
  existsb is_send (skipn res (calls s)).

(** [res.render(view, locals)]: when the response has already been sent
    the page cannot be delivered, and the error is passed to [next]. *)
Definition render (res : Response) (view : string) (locals : Locals)
  : Async unit :=
  fun s =>
    if headersSent res s
    then (Resolved tt,
          log_call (ResNext HeadersSentError)
            (log_call (ResRender view locals) s))
    else (Resolved tt, log_call (ResRender view locals) s).

(** [res.redirect(url)]: it throws when the response has already been
    sent. *)
Definition redirect (res : Response) (url : string) : Async unit :=
  fun s =>
    if headersSent res s
    then (Rejected HeadersSentError, log_call (ResRedirect url) s)
    else (Resolved tt, log_call (ResRedirect url) s).

(** [asyncHandler(fn)], run with a response object of its own. *)
Definition asyncHandler (fn : Response -> Async unit) : State -> State :=
  fun s =>
    match fn (List.length (calls s)) s with
    | (Resolved _, s') => s'
    | (Rejected e, s') => log_call (ResNext e) s'
    end.

(** A query on an ObjectId path, given a text. *)
Definition cast_then {A : Type} (raw : string) (query : ObjectId.t -> Async A)
  : Async A :=
  match ObjectId.cast raw with
  | Some id => query id
  | None => throw (CastError raw)
  end.

(** [Category.findById(req.params.id).exec()] *)
Definition findById (raw : string) : Async (option CategoryDoc) :=
  cast_then raw Category.findById.

(** [Item.find({ category: req.params.id }).exec()] *)
Definition find_items (raw : string) : Async (list ItemDoc) :=
  cast_then raw Item.find.

(** [Item.find({ category: req.params.id }, 'name description price stock')] *)
Definition find_items_select (raw : string) : Async (list ItemFields) :=
  cast_then raw Item.find_select.

(** [Category.findByIdAndDelete(req.params.id)] *)
Definition findByIdAndDelete (raw : string) : Async (option CategoryDoc) :=
  cast_then raw Category.findByIdAndDelete.

(** [new Category({ name, description, _id: req.params.id })]: a document
    under the id the text casts to, when it casts. *)
Definition new_with_id (name description raw : string) : option CategoryDoc :=
  match ObjectId.cast raw with
  | Some id => Some (mkCategory id name description)
  | None => None
  end.

(** The document of an update, as the form receives it. *)
Definition document_value (name description : string)
  (doc : option CategoryDoc) : Value :=
  match doc with
  | Some c => VCategory c
  | None => VDraft name description
  end.

(** [Category.findByIdAndUpdate(req.params.id, category).exec()] followed by
    [res.redirect(category.url)]. *)
Definition update_and_redirect (res : Response) (raw : string)
  (doc : option CategoryDoc) : Async unit :=
  match doc with
  | Some c =>
      cast_then raw (fun id => Category.findByIdAndUpdate id c) ;;;
      redirect res (Category.url c)
  | None => throw (CastError raw)
  end.

(** Display detail page for a specific Category. *)
Definition category_detail (req : Request) : State -> State :=
  asyncHandler (fun res =>
    '(category, itemsInCategory) <-
      Promise_all (findById (params_id req))
                  (find_items_select (params_id req)) ;;
    match category with
    | None => next (HttpError "Category not found" 404)
    | Some c =>
        render res "category_detail"
          [("title", VString "Category Detail");
           ("category", VCategory c);
           ("category_items", VItemFields itemsInCategory)]
    end).

(** Display Category delete form on GET. *)
Definition category_delete_get (req : Request) : State -> State :=
  asyncHandler (fun res =>
    '(category, itemsInCategory) <-
      Promise_all (findById (params_id req)) (find_items (params_id req)) ;;
    (match category with
     | None => redirect res "/categories"
     | Some _ => ret tt
     end) ;;;
    render res "category_delete"
      [("title", VString "Delete Category");
       ("category", category_or_null category);
       ("category_items", VItems itemsInCategory)]).

(** Handle Category delete on POST. *)
Definition category_delete_post (req : Request) : State -> State :=
  asyncHandler (fun res =>
    '(category, itemsInCategory) <-
      Promise_all (findById (params_id req)) (find_items (params_id req)) ;;
    if (0 <? List.length itemsInCategory)%nat then
      render res "category_delete"
        [("title", VString "Delete Category");
         ("category", category_or_null category);
         ("category_items", VItems itemsInCategory)]
    else
      findByIdAndDelete (params_id req) ;;;
      redirect res "/categories").

(** Display Category update form on GET. *)
Definition category_update_get (req : Request) : State -> State :=
  asyncHandler (fun res =>
    category <- findById (params_id req) ;;
    match category with
    | None => next (HttpError "Category not found" 404)
    | Some c =>
        render res "category_form"
          [("title", VString "Update Category"); ("category", VCategory c)]
    end).

(** Handle Category update on POST. *)
Definition category_update_post (req : Request) : State -> State :=
  let name := body_name (sanitized (body req)) in
  let description := body_description (sanitized (body req)) in
  let errors := validationResult (body req) in
  asyncHandler (fun res =>
    let category := new_with_id name description (params_id req) in
    if negb (isEmpty errors) then
      render res "category_form"
        [("title", VString "Update Category");
         ("category", document_value name description category);
         ("errors", VErrors errors)]
    else
      update_and_redirect res (params_id req) category).

End Http.

(* ================================================================= *)
(** ** Predicates used in the statements *)

(** The database keeps identifiers unique within the collection. *)
Definition unique_ids (s : State) : Prop :=
  NoDup (map cat_id (categories s)).

(** The Items that reference a Category. *)
Definition dependents (id : ObjectId.t) (s : State) : list ItemDoc :=
  List.filter (Item.in_category id) (items s).

(** The stored Categories whose name equals [name] up to case. *)
Definition named (name : string) (s : State) : list CategoryDoc :=
  List.filter (Category.same_name name) (categories s).

(** Both collections of [s'] are those of [s]. *)
Definition same_store (s s' : State) : Prop :=
  categories s' = categories s /\ items s' = items s.

(** The calls a handler added to the log of [s]. *)
Definition responds (s s' : State) (cs : list ResCall) : Prop :=
  calls s' = calls s ++ cs.

(** A submission passes validation when [validationResult] is empty. *)
Definition passes_validation (b : Body) : Prop := validationResult b = [].

(** A field fails its chain when nothing is left of it after trimming. *)
Definition field_fails (raw : string) : Prop :=
  String.length (Validator.trim raw) = 0.

(** A character that case folding neither produces nor changes. *)
Definition caseless (c : ascii) : Prop :=
  forall x, Ascii.eqb (Collation.fold_char x) c = Ascii.eqb x c.

(** Every Item references a stored Category. *)
Definition referential_integrity (s : State) : Prop :=
  forall i, In i (items s) ->
    Category.lookup (item_category i) (categories s) <> None.

(** No two stored Categories have the same name up to case. *)
Definition unique_names (s : State) : Prop :=
  NoDup (map (fun c => Collation.fold (cat_name c)) (categories s)).

(** The handler made exactly one call on [res] or [next]. *)
Definition responds_once (s s' : State) : Prop :=
  exists c, responds s s' [c].

(** The character [c] occurs in [s]. *)
Fixpoint occurs (c : ascii) (s : string) : bool :=
  match s with
  | EmptyString => false
  | String x s' => Ascii.eqb x c || occurs c s'
  end.

(** Every character of [s] is whitespace. *)
Fixpoint all_space (s : string) : bool :=
  match s with
  | EmptyString => true
  | String c s' => Validator.is_space c && all_space s'
  end.

(** The characters that [escape] rewrites. *)
Definition special_chars : list ascii :=
  [Validator.amp; Validator.dquote; Validator.squote; Validator.lt;
   Validator.gt; Validator.slash; Validator.backslash; Validator.backtick].

(** No character of [s] is rewritten by [escape]. *)
Definition plain (s : string) : Prop :=
  forall c, In c special_chars -> occurs c s = false.

Definition starts_with_space (s : string) : bool :=
  match s with
  | EmptyString => false
  | String c _ => Validator.is_space c
  end.

Fixpoint ends_with_space (s : string) : bool :=
  match s with
  | EmptyString => false
  | String c EmptyString => Validator.is_space c
  | String _ s' => ends_with_space s'
  end.

(** Neither the first nor the last character of [s] is whitespace. *)
Definition trimmed (s : string) : Prop :=
  starts_with_space s = false /\ ends_with_space s = false.

(** The characters that [escape] removes for good. *)
Definition markup_chars : list ascii :=
  [Validator.dquote; Validator.squote; Validator.lt; Validator.gt;
   Validator.slash; Validator.backslash; Validator.backtick].

Definition markup_free (v : string) : Prop :=
  forall c, In c markup_chars -> occurs c v = false.

(** No stored Category has a markup character in its name or description. *)
Definition markup_free_store (s : State) : Prop :=
  forall d, In d (categories s) ->
    markup_free (cat_name d) /\ markup_free (cat_description d).

(** *** Sample data *)

Definition empty_store : State := mkState [] [] [].

Definition widgets : CategoryDoc := mkCategory 1%N "Widgets" "desc".

Definition bolt : ItemDoc :=
  mkItem 10%N "Bolt" "M6 bolt" (QArith_base.Qmake 5%Z 4%positive) 30%N 1%N None.

(** A store with one Category and one Item that references it. *)
Definition stocked_store : State := mkState [widgets] [bolt] [].

(** A store with one Category and no Items. *)
Definition bare_store : State := mkState [widgets] [] [].

Definition request (id : ObjectId.t) (name description : string) : Request :=
  mkRequest id (mkBody name description).

(** A request that carries no form fields. *)
Definition get_request (id : ObjectId.t) : Request :=
  request id EmptyString EmptyString.

(** A submission with an empty name and a description of two spaces. *)
Definition blank_body : Body := mkBody EmptyString "  ".

(** A request by path text, without form fields. *)
Definition http_get (path : string) : Http.Request :=
  Http.mkRequest path (mkBody EmptyString EmptyString).

(** A submission by path text. *)
Definition http_post (path name description : string) : Http.Request :=
  Http.mkRequest path (mkBody name description).

(** The path text of the ids 1 and 7, and a text that is no id. *)
Definition path_1 : string := "000000000000000000000001".
Definition path_7 : string := "000000000000000000000007".
Definition path_xyz : string := "xyz".

(** A name of 26 characters that [escape] turns into one of 104. *)
Definition angle_name : string := repeat_char "<"%char 26.

(** A name of 101 characters. *)
Definition long_name : string := repeat_char "a"%char 101.

Definition gadgets : CategoryDoc := mkCategory 2%N "Gadgets" "small things".

(** A store with two Categories and an Item in the first. *)
Definition two_store : State := mkState [widgets; gadgets] [bolt] [].

(* ================================================================= *)
(** ** Lookups, removals and updates on a collection *)

Section Collection.

Variable id : ObjectId.t.

Lemma lookup_has_id (l : list CategoryDoc) (c : CategoryDoc) :
  Category.lookup id l = Some c -> cat_id c = id.
Proof.
  unfold Category.lookup. intros H.
  apply find_some in H. destruct H as [_ H].
  unfold Category.has_id, ObjectId.eqb in H.
  now apply N.eqb_eq in H.
Qed.

Lemma lookup_none_not_in (l : list CategoryDoc) :
  Category.lookup id l = None <-> ~ In id (map cat_id l).
Proof.
  unfold Category.lookup. induction l as [|c l IH]; simpl.
  - split; [intros _ []|reflexivity].
  - unfold Category.has_id at 1, ObjectId.eqb.
    destruct (N.eqb_spec (cat_id c) id) as [E|E].
    + split; [discriminate|]. intros H. exfalso. apply H. now left.
    + rewrite IH. split.
      * intros H [H'|H']; [now apply E|now apply H].
      * intros H H'. apply H. now right.
Qed.

Lemma remove_first_absent (l : list CategoryDoc) :
  Category.lookup id l = None -> Category.remove_first id l = l.
Proof.
  unfold Category.lookup. induction l as [|c l IH]; simpl; [reflexivity|].
  destruct (Category.has_id id c); [discriminate|].
  intros H. now rewrite IH.
Qed.

Lemma remove_first_ids_subset (l : list CategoryDoc) (j : ObjectId.t) :
  In j (map cat_id (Category.remove_first id l)) -> In j (map cat_id l).
Proof.
  induction l as [|c l IH]; simpl; [tauto|].
  destruct (Category.has_id id c); simpl; [now right|].
  intros [H|H]; [now left|right; now apply IH].
Qed.

Lemma remove_first_gone (l : list CategoryDoc) :
  NoDup (map cat_id l) ->
  Category.lookup id (Category.remove_first id l) = None.
Proof.
  induction l as [|c l IH]; simpl; intros ND; [reflexivity|].
  inversion ND as [|x xs Hnotin ND']; subst.
  destruct (Category.has_id id c) eqn:E.
  - apply lookup_none_not_in.
    unfold Category.has_id, ObjectId.eqb in E. apply N.eqb_eq in E.
    now rewrite <- E.
  - unfold Category.lookup. simpl. rewrite E. now apply IH.
Qed.

Lemma remove_first_others (l : list CategoryDoc) (j : ObjectId.t) :
  j <> id ->
  Category.lookup j (Category.remove_first id l) = Category.lookup j l.
Proof.
  intros Hj. unfold Category.lookup.
  induction l as [|c l IH]; simpl; [reflexivity|].
  destruct (Category.has_id id c) eqn:E; simpl.
  - unfold Category.has_id, ObjectId.eqb in *. apply N.eqb_eq in E.
    destruct (N.eqb_spec (cat_id c) j) as [E'|E']; [congruence|reflexivity].
  - now rewrite IH.
Qed.

Lemma update_first_ids (upd : CategoryDoc) (l : list CategoryDoc) :
  map cat_id (Category.update_first id upd l) = map cat_id l.
Proof.
  induction l as [|c l IH]; simpl; [reflexivity|].
  destruct (Category.has_id id c); simpl; [reflexivity|now rewrite IH].
Qed.

Lemma update_first_lookup (upd old : CategoryDoc) (l : list CategoryDoc) :
  Category.lookup id l = Some old ->
  Category.lookup id (Category.update_first id upd l)
  = Some (mkCategory (cat_id old) (cat_name upd) (cat_description upd)).
Proof.
  unfold Category.lookup. induction l as [|c l IH]; simpl; [discriminate|].
  destruct (Category.has_id id c) eqn:E; simpl.
  - intros H. injection H as <-.
    unfold Category.has_id in *. simpl. now rewrite E.
  - rewrite E. exact IH.
Qed.

Lemma update_first_others (upd : CategoryDoc) (l : list CategoryDoc)
  (j : ObjectId.t) :
  j <> id ->
  Category.lookup j (Category.update_first id upd l) = Category.lookup j l.
Proof.
  intros Hj. unfold Category.lookup.
  induction l as [|c l IH]; simpl; [reflexivity|].
  destruct (Category.has_id id c) eqn:E; simpl.
  - unfold Category.has_id, ObjectId.eqb in *. simpl.
    apply N.eqb_eq in E.
    destruct (N.eqb_spec (cat_id c) j) as [E'|E']; [congruence|reflexivity].
  - now rewrite IH.
Qed.

End Collection.

(** The generated identifier is not in use. *)
Lemma fresh_bound (l : list ObjectId.t) (j : ObjectId.t) :
  In j l -> (j < ObjectId.fresh l)%N.
Proof.
  unfold ObjectId.fresh. induction l as [|x l IH]; simpl; [tauto|].
  intros [->|H]; [lia|]. specialize (IH H). lia.
Qed.

Lemma fresh_unused (l : list CategoryDoc) :
  Category.lookup (ObjectId.fresh (map cat_id l)) l = None.
Proof.
  apply lookup_none_not_in. intros H. apply fresh_bound in H. lia.
Qed.

(* ================================================================= *)
(** ** Validation *)

Lemma required_chain_errors (path msg raw : string) :
  snd (required_chain path msg raw) =
  if (1 <=? String.length (Validator.trim raw))%nat then []
  else [mkFieldError path msg (Validator.trim raw)].
Proof.
  unfold required_chain, Validator.isLength. simpl snd.
  now rewrite andb_true_r.
Qed.

Lemma required_chain_accepts (path msg raw : string) :
  snd (required_chain path msg raw) = [] <->
  1 <= String.length (Validator.trim raw).
Proof.
  rewrite required_chain_errors.
  destruct (Nat.leb_spec 1 (String.length (Validator.trim raw))) as [H|H].
  - tauto.
  - split; [discriminate|lia].
Qed.

Lemma passes_validation_iff (b : Body) :
  passes_validation b <->
  1 <= String.length (Validator.trim (body_name b)) /\
  1 <= String.length (Validator.trim (body_description b)).
Proof.
  unfold passes_validation, validationResult, name_chain, description_chain.
  rewrite <- !required_chain_accepts.
  split.
  - intros H. apply app_eq_nil in H. exact H.
  - intros [-> ->]. reflexivity.
Qed.

Lemma isEmpty_false (errors : list FieldError) :
  errors <> [] -> isEmpty errors = false.
Proof. destruct errors; [congruence|reflexivity]. Qed.

(* ================================================================= *)
(** ** What each handler does, branch by branch *)

Ltac run_handler :=
  unfold asyncHandler, Promise_all, res_render, res_redirect, next,
    Category.findById, Category.findOne, Category.find, Category.new,
    Category.new_with_id, Category.countDocuments, Category.findByIdAndDelete,
    Category.findByIdAndUpdate, Item.find, Item.find_select,
    Item.countDocuments, run_chains, bind, ret;
  cbn [fst snd params_id body body_name body_description sanitized].

Lemma index_run (req : Request) (s : State) :
  index req s =
  log_call (ResRender "index"
    [("title", VString "Inventory App - Home");
     ("item_count", VNumber (List.length (items s)));
     ("category_count", VNumber (List.length (categories s)))]) s.
Proof. reflexivity. Qed.

Lemma category_detail_run (req : Request) (s : State) :
  category_detail req s =
  match Category.lookup (params_id req) (categories s) with
  | None => log_call (ResNext (HttpError "Category not found" 404)) s
  | Some c =>
      log_call (ResRender "category_detail"
        [("title", VString "Category Detail");
         ("category", VCategory c);
         ("category_items",
          VItemFields (map Item.select (dependents (params_id req) s)))]) s
  end.
Proof.
  unfold category_detail. run_handler.
  now destruct (Category.lookup (params_id req) (categories s)).
Qed.

Lemma category_delete_get_run (req : Request) (s : State) :
  category_delete_get req s =
  match Category.lookup (params_id req) (categories s) with
  | None =>
      log_call (ResRender "category_delete"
        [("title", VString "Delete Category");
         ("category", VNull);
         ("category_items", VItems (dependents (params_id req) s))])
        (log_call (ResRedirect "/categories") s)
  | Some c =>
      log_call (ResRender "category_delete"
        [("title", VString "Delete Category");
         ("category", VCategory c);
         ("category_items", VItems (dependents (params_id req) s))]) s
  end.
Proof.
  unfold category_delete_get. run_handler.
  now destruct (Category.lookup (params_id req) (categories s)).
Qed.

Lemma category_delete_post_run (req : Request) (s : State) :
  category_delete_post req s =
  match dependents (params_id req) s with
  | [] =>
      log_call (ResRedirect "/categories")
        (set_categories
           (Category.remove_first (params_id req) (categories s)) s)
  | deps =>
      log_call (ResRender "category_delete"
        [("title", VString "Delete Category");
         ("category",
          category_or_null (Category.lookup (params_id req) (categories s)));
         ("category_items", VItems deps)]) s
  end.
Proof.
  unfold category_delete_post, dependents. run_handler.
  now destruct (filter (Item.in_category (params_id req)) (items s)).
Qed.

Lemma category_update_post_invalid (req : Request) (s : State) :
  validationResult (body req) <> [] ->
  category_update_post req s =
  log_call (ResRender "category_form"
    [("title", VString "Update Category");
     ("category",
      VCategory (mkCategory (params_id req)
                   (body_name (sanitized (body req)))
                   (body_description (sanitized (body req)))));
     ("errors", VErrors (validationResult (body req)))]) s.
Proof.
  intros H. unfold category_update_post. run_handler.
  now rewrite (isEmpty_false _ H).
Qed.

Lemma category_update_post_valid (req : Request) (s : State) :
  passes_validation (body req) ->
  category_update_post req s =
  log_call (ResRedirect ("/category/" ++ ObjectId.toString (params_id req)))
    match Category.lookup (params_id req) (categories s) with
    | None => s
    | Some _ =>
        set_categories
          (Category.update_first (params_id req)
             (mkCategory (params_id req)
                (body_name (sanitized (body req)))
                (body_description (sanitized (body req))))
             (categories s)) s
    end.
Proof.
  intros H. unfold category_update_post. run_handler. rewrite H.
  cbn [isEmpty negb].
  destruct (Category.lookup (params_id req) (categories s)) as [old|] eqn:E;
    [|reflexivity].
  cbn [cat_id]. apply lookup_has_id in E. rewrite E.
  unfold ObjectId.eqb. now rewrite N.eqb_refl.
Qed.

Lemma category_create_post_invalid (req : Request) (s : State) :
  validationResult (body req) <> [] ->
  category_create_post req s =
  log_call (ResRender "category_form"
    [("title", VString "Create Category");
     ("category",
      VCategory (mkCategory (ObjectId.fresh (map cat_id (categories s)))
                   (body_name (sanitized (body req)))
                   (body_description (sanitized (body req)))));
     ("errors", VErrors (validationResult (body req)))]) s.
Proof.
  intros H. unfold category_create_post. run_handler.
  now rewrite (isEmpty_false _ H).
Qed.

Lemma category_create_post_valid (req : Request) (s : State) :
  passes_validation (body req) ->
  let doc := mkCategory (ObjectId.fresh (map cat_id (categories s)))
               (body_name (sanitized (body req)))
               (body_description (sanitized (body req))) in
  category_create_post req s =
  match named (body_name (sanitized (body req))) s with
  | existing :: _ => log_call (ResRedirect (Category.url existing)) s
  | [] =>
      match Category.invalid_paths doc with
      | [] =>
          log_call (ResRedirect (Category.url doc))
            (set_categories (categories s ++ [doc]) s)
      | paths => log_call (ResNext (MongooseValidationError paths)) s
      end
  end.
Proof.
  intros H doc. subst doc. unfold category_create_post, named. run_handler.
  rewrite H. cbn [isEmpty negb].
  set (nm := fst (name_chain (body req))).
  set (doc := mkCategory _ nm _).
  assert (F : forall l,
    find (Category.same_name nm) l =
    match filter (Category.same_name nm) l with c :: _ => Some c | [] => None end).
  { induction l as [|c l IH]; simpl; [reflexivity|].
    now destruct (Category.same_name nm c). }
  rewrite F. destruct (filter (Category.same_name nm) (categories s));
    [|reflexivity].
  unfold Category.save.
  destruct (Category.invalid_paths doc); [|reflexivity].
  unfold doc at 1. cbn [cat_id]. now rewrite fresh_unused.
Qed.

(* ================================================================= *)
(** ** Sanitizing commutes with case folding *)

Section Folding.

Import Validator.

Lemma smap_append (f : ascii -> ascii) (a b : string) :
  smap f (a ++ b) = (smap f a ++ smap f b)%string.
Proof. induction a as [|c a IH]; simpl; [reflexivity|now rewrite IH]. Qed.

Lemma fold_char_space (c : ascii) :
  is_space (Collation.fold_char c) = is_space c.
Proof. destruct c as [[] [] [] [] [] [] [] []]; reflexivity. Qed.

Lemma ltrim_fold (s : string) :
  ltrim (Collation.fold s) = Collation.fold (ltrim s).
Proof.
  induction s as [|c s IH]; simpl; [reflexivity|].
  rewrite fold_char_space. now destruct (is_space c).
Qed.

Lemma rtrim_fold (s : string) :
  rtrim (Collation.fold s) = Collation.fold (rtrim s).
Proof.
  induction s as [|c s IH]; simpl; [reflexivity|].
  fold (Collation.fold s). rewrite IH, fold_char_space.
  destruct (rtrim s); simpl; [now destruct (is_space c)|reflexivity].
Qed.

Lemma trim_fold (s : string) :
  trim (Collation.fold s) = Collation.fold (trim s).
Proof. unfold trim. now rewrite ltrim_fold, rtrim_fold. Qed.

Lemma replace_all_fold (c : ascii) (by_ s : string) :
  caseless c ->
  Collation.fold (replace_all c by_ s)
  = replace_all c (Collation.fold by_) (Collation.fold s).
Proof.
  intros Hc. unfold Collation.fold in *.
  induction s as [|x s IH]; [reflexivity|].
  cbn [replace_all smap]. rewrite Hc. destruct (Ascii.eqb x c).
  - now rewrite smap_append, IH.
  - cbn [smap]. now rewrite IH.
Qed.

Ltac caseless_by_cases :=
  intros x; destruct x as [[] [] [] [] [] [] [] []]; reflexivity.

Lemma caseless_amp : caseless amp. Proof. caseless_by_cases. Qed.
Lemma caseless_dquote : caseless dquote. Proof. caseless_by_cases. Qed.
Lemma caseless_squote : caseless squote. Proof. caseless_by_cases. Qed.
Lemma caseless_lt : caseless lt. Proof. caseless_by_cases. Qed.
Lemma caseless_gt : caseless gt. Proof. caseless_by_cases. Qed.
Lemma caseless_slash : caseless slash. Proof. caseless_by_cases. Qed.
Lemma caseless_backslash : caseless backslash. Proof. caseless_by_cases. Qed.
Lemma caseless_backtick : caseless backtick. Proof. caseless_by_cases. Qed.

(** The folded image of an escaped string is a function of the folded
    image of the string. *)
Lemma escape_fold (a b : string) :
  Collation.fold a = Collation.fold b ->
  Collation.fold (escape a) = Collation.fold (escape b).
Proof.
  intros H. unfold escape.
  rewrite !(replace_all_fold backtick), !(replace_all_fold backslash),
    !(replace_all_fold slash), !(replace_all_fold gt),
    !(replace_all_fold lt), !(replace_all_fold squote),
    !(replace_all_fold dquote), !(replace_all_fold amp), H;
    auto using caseless_amp, caseless_dquote, caseless_squote, caseless_lt,
      caseless_gt, caseless_slash, caseless_backslash, caseless_backtick.
Qed.

(** Names that differ in case only are sanitized to names that differ in
    case only. *)
Lemma sanitized_name_fold (a b : Body) :
  Collation.fold (body_name a) = Collation.fold (body_name b) ->
  Collation.fold (body_name (sanitized a))
  = Collation.fold (body_name (sanitized b)).
Proof.
  intros H. unfold sanitized, name_chain, required_chain. simpl.
  apply escape_fold. now rewrite <- !trim_fold, H.
Qed.

Lemma same_name_fold (n1 n2 : string) (c : CategoryDoc) :
  Collation.fold n1 = Collation.fold n2 ->
  Category.same_name n1 c = Category.same_name n2 c.
Proof.
  intros H. unfold Category.same_name, Collation.eqb. now rewrite H.
Qed.

Lemma named_fold (n1 n2 : string) (s : State) :
  Collation.fold n1 = Collation.fold n2 -> named n1 s = named n2 s.
Proof.
  intros H. unfold named. apply filter_ext. intros c.
  now apply same_name_fold.
Qed.

Lemma same_name_refl (c : CategoryDoc) :
  Category.same_name (cat_name c) c = true.
Proof. unfold Category.same_name, Collation.eqb. apply String.eqb_refl. Qed.

End Folding.

(* ================================================================= *)
(** ** Small facts about the log and the store *)

Lemma dependents_spec (id : ObjectId.t) (s : State) (i : ItemDoc) :
  In i (dependents id s) <-> In i (items s) /\ item_category i = id.
Proof.
  unfold dependents. rewrite filter_In.
  unfold Item.in_category, ObjectId.eqb. now rewrite N.eqb_eq.
Qed.

Lemma responds_log_call (c : ResCall) (s : State) :
  responds s (log_call c s) [c].
Proof. reflexivity. Qed.

Lemma same_store_log_call (c : ResCall) (s : State) :
  same_store s (log_call c s).
Proof. split; reflexivity. Qed.

Lemma responds_inj (s s' : State) (cs cs' : list ResCall) :
  responds s s' cs -> responds s s' cs' -> cs = cs'.
Proof.
  unfold responds. intros H H'. rewrite H in H'.
  now apply app_inv_head in H'.
Qed.

(** Every handler keeps identifiers unique. *)
Lemma remove_first_NoDup (id : ObjectId.t) (l : list CategoryDoc) :
  NoDup (map cat_id l) -> NoDup (map cat_id (Category.remove_first id l)).
Proof.
  induction l as [|c l IH]; simpl; intros ND; [constructor|].
  inversion ND as [|x xs Hnotin ND']; subst.
  destruct (Category.has_id id c); [assumption|].
  simpl. constructor; [|now apply IH].
  intros H. apply Hnotin. eapply remove_first_ids_subset. exact H.
Qed.

Lemma append_fresh_NoDup (l : list CategoryDoc) (name description : string) :
  NoDup (map cat_id l) ->
  NoDup (map cat_id
           (l ++ [mkCategory (ObjectId.fresh (map cat_id l)) name description])).
Proof.
  intros ND. rewrite map_app. simpl.
  apply NoDup_app; [assumption|repeat constructor; intros []|].
  intros j Hj [<-|[]]. apply fresh_bound in Hj. lia.
Qed.

(* ================================================================= *)
(** ** Home summary *)

(** C8.  The home page is rendered with the number of stored Items and the
    number of stored Categories, and neither collection is written.  The two
    counts are independent reads: awaited in either order they resolve to
    the same numbers and leave the state as it was. *)
Theorem index_reports_counts (req : Request) (s : State) :
  responds s (index req s)
    [ResRender "index"
       [("title", VString "Inventory App - Home");
        ("item_count", VNumber (List.length (items s)));
        ("category_count", VNumber (List.length (categories s)))]] /\
  same_store s (index req s) /\
  Promise_all Item.countDocuments Category.countDocuments s
  = (Resolved (List.length (items s), List.length (categories s)), s) /\
  Promise_all Category.countDocuments Item.countDocuments s
  = (Resolved (List.length (categories s), List.length (items s)), s).
Proof.
  rewrite index_run.
  split; [apply responds_log_call|].
  split; [apply same_store_log_call|].
  split; reflexivity.
Qed.

(* ================================================================= *)
(** ** Category detail *)

(** The detail handler by id.  It passes the error "Category not found" with
    status 404 to [next] exactly when no Category has the requested id.
    When the Category exists the detail view is rendered with it and with
    the selected fields of the Items whose category is the requested id,
    which are exactly the stored Items with that category.  The store is
    only read. *)
Theorem category_detail_not_found_iff (req : Request) (s : State) :
  let id := params_id req in
  let s' := category_detail req s in
  same_store s s' /\
  (responds s s' [ResNext (HttpError "Category not found" 404)] <->
   Category.lookup id (categories s) = None) /\
  (forall c, Category.lookup id (categories s) = Some c ->
     responds s s'
       [ResRender "category_detail"
          [("title", VString "Category Detail");
           ("category", VCategory c);
           ("category_items", VItemFields (map Item.select (dependents id s)))]]) /\
  (forall i, In i (dependents id s) <-> In i (items s) /\ item_category i = id).
Proof.
  intros id s'. subst s'. rewrite category_detail_run. fold id.
  destruct (Category.lookup id (categories s)) as [c|] eqn:E.
  - split; [apply same_store_log_call|]. split; [|split].
    + split; [|discriminate]. intros H.
      pose proof (responds_inj _ _ _ _ H (responds_log_call _ _)) as D.
      discriminate D.
    + intros c' Hc'. injection Hc' as <-. apply responds_log_call.
    + intros i. apply dependents_spec.
  - split; [apply same_store_log_call|]. split; [|split].
    + split; [reflexivity|]. intros _. apply responds_log_call.
    + discriminate.
    + intros i. apply dependents_spec.
Qed.

Lemma category_detail_not_found_iff_witness :
  Category.lookup 1%N (categories stocked_store) = Some widgets /\
  responds stocked_store (category_detail (get_request 1%N) stocked_store)
    [ResRender "category_detail"
       [("title", VString "Category Detail");
        ("category", VCategory widgets);
        ("category_items", VItemFields [Item.select bolt])]].
Proof.
  split; [reflexivity|].
  apply (proj1 (proj2 (proj2
    (category_detail_not_found_iff (get_request 1%N) stocked_store)))).
  reflexivity.
Defined.

(* ================================================================= *)
(** ** Category delete *)

(** C5.  A delete-confirmation request for an id that no stored Category
    has: the handler redirects to the listing and then, its null branch
    having no [return], also calls [res.render] for the confirmation view
    with a null category. *)
Theorem category_delete_get_absent_falls_through :
  Category.lookup 7%N (categories empty_store) = None /\
  calls (category_delete_get (get_request 7%N) empty_store)
  = [ResRedirect "/categories";
     ResRender "category_delete"
       [("title", VString "Delete Category");
        ("category", VNull);
        ("category_items", VItems [])]].
Proof. split; reflexivity. Qed.



(** Delete-execution by id, for an id that no stored Category has and no
    Item references: both collections are left as they were and the caller
    is redirected to the listing.  Whatever the request, the handler makes
    one call and that call never passes an error to [next]. *)
Theorem category_delete_post_absent (req : Request) (s : State) :
  let id := params_id req in
  let s' := category_delete_post req s in
  (Category.lookup id (categories s) = None ->
   dependents id s = [] ->
   same_store s s' /\ responds s s' [ResRedirect "/categories"]) /\
  (exists c, responds s s' [c] /\ forall e, c <> ResNext e).
Proof.
  intros id s'. subst s'. rewrite category_delete_post_run. fold id.
  split.
  - intros Habs Hdeps. rewrite Hdeps.
    rewrite (remove_first_absent _ _ Habs).
    split; [split|]; reflexivity.
  - destruct (dependents id s) as [|i deps].
    + exists (ResRedirect "/categories"). split; [reflexivity|discriminate].
    + eexists. split; [apply responds_log_call|discriminate].
Qed.

Lemma category_delete_post_absent_witness :
  Category.lookup 7%N (categories bare_store) = None /\
  dependents 7%N bare_store = [] /\
  same_store bare_store (category_delete_post (get_request 7%N) bare_store) /\
  responds bare_store (category_delete_post (get_request 7%N) bare_store)
    [ResRedirect "/categories"].
Proof.
  split; [reflexivity|]. split; [reflexivity|].
  apply (proj1 (category_delete_post_absent (get_request 7%N) bare_store));
    reflexivity.
Defined.

(* ================================================================= *)
(** ** Category update *)

(** C3.  An update that passes validation leaves the identifiers of the
    stored Categories as they were.  The Category stored under the id of
    the request path keeps that id and carries the sanitized name and
    description afterwards; every other Category and every Item is
    untouched. *)
Theorem category_update_post_keeps_id (req : Request) (s : State) :
  passes_validation (body req) ->
  let id := params_id req in
  let s' := category_update_post req s in
  map cat_id (categories s') = map cat_id (categories s) /\
  items s' = items s /\
  (forall old, Category.lookup id (categories s) = Some old ->
     cat_id old = id /\
     Category.lookup id (categories s')
     = Some (mkCategory id
               (Validator.escape (Validator.trim (body_name (body req))))
               (Validator.escape (Validator.trim (body_description (body req)))))) /\
  (forall j, j <> id ->
     Category.lookup j (categories s') = Category.lookup j (categories s)).
Proof.
  intros V id s'. subst s'. rewrite (category_update_post_valid _ _ V). fold id.
  destruct (Category.lookup id (categories s)) as [old|] eqn:E.
  - cbn [log_call set_categories categories items].
    split; [apply update_first_ids|]. split; [reflexivity|]. split.
    + intros old' Hold. injection Hold as <-.
      pose proof (lookup_has_id _ _ _ E) as Hid. split; [exact Hid|].
      rewrite (update_first_lookup _ _ _ _ E). cbn [cat_name cat_description].
      now rewrite Hid.
    + intros j Hj. now apply update_first_others.
  - split; [reflexivity|]. split; [reflexivity|].
    split; [discriminate|reflexivity].
Qed.

Lemma category_update_post_keeps_id_witness :
  passes_validation (mkBody " Gadgets " "small <things>") /\
  Category.lookup 1%N
    (categories (category_update_post
                   (request 1%N " Gadgets " "small <things>") stocked_store))
  = Some (mkCategory 1%N "Gadgets" "small &lt;things&gt;").
Proof.
  assert (V : passes_validation (mkBody " Gadgets " "small <things>"))
    by reflexivity.
  split; [exact V|].
  exact (proj2 (proj1 (proj2 (proj2
    (category_update_post_keeps_id
       (request 1%N " Gadgets " "small <things>") stocked_store V)))
    widgets eq_refl)).
Defined.

(** Update by id.  An update that passes validation for an id that no stored Category
    has: both collections are left as they were, and the handler's one call
    is the redirect to the detail URL of the requested id. *)
Theorem category_update_post_absent (req : Request) (s : State) :
  passes_validation (body req) ->
  Category.lookup (params_id req) (categories s) = None ->
  let s' := category_update_post req s in
  same_store s s' /\
  responds s s'
    [ResRedirect ("/category/" ++ ObjectId.toString (params_id req))].
Proof.
  intros V Habs s'. subst s'.
  rewrite (category_update_post_valid _ _ V), Habs.
  split; [apply same_store_log_call|apply responds_log_call].
Qed.

Lemma category_update_post_absent_witness :
  passes_validation (mkBody "Gadgets" "things") /\
  Category.lookup 7%N (categories bare_store) = None /\
  calls (category_update_post (request 7%N "Gadgets" "things") bare_store)
  = [ResRedirect "/category/000000000000000000000007"].
Proof.
  split; [reflexivity|]. split; [reflexivity|].
  exact (proj2 (category_update_post_absent
                  (request 7%N "Gadgets" "things") bare_store
                  eq_refl eq_refl)).
Defined.

(* ================================================================= *)
(** ** Lengths under sanitizing, and the schema *)

Lemma string_length_append (a b : string) :
  String.length (a ++ b) = String.length a + String.length b.
Proof. induction a as [|c a IH]; simpl; [reflexivity|now rewrite IH]. Qed.

Lemma replace_all_length (c : ascii) (by_ s : string) :
  1 <= String.length by_ ->
  String.length s <= String.length (Validator.replace_all c by_ s).
Proof.
  intros Hby. induction s as [|x s IH]; simpl; [lia|].
  destruct (Ascii.eqb x c); [rewrite string_length_append|simpl]; lia.
Qed.

(** Escaping never shortens a string. *)
Lemma escape_length (s : string) :
  String.length s <= String.length (Validator.escape s).
Proof.
  unfold Validator.escape.
  repeat (etransitivity; [|apply replace_all_length; simpl; lia]).
  reflexivity.
Qed.

Lemma path_ok_iff (v : string) :
  Category.path_ok v = true <->
  1 <= String.length v /\ String.length v <= 100.
Proof.
  unfold Category.path_ok, Category.maxLength.
  rewrite andb_true_iff, !Nat.leb_le. tauto.
Qed.

Lemma invalid_paths_nil (c : CategoryDoc) :
  Category.invalid_paths c = [] <->
  Category.path_ok (cat_name c) = true /\
  Category.path_ok (cat_description c) = true.
Proof.
  unfold Category.invalid_paths.
  destruct (Category.path_ok (cat_name c)),
           (Category.path_ok (cat_description c)); simpl;
    intuition discriminate.
Qed.

(** A submission that passes validation has non-empty sanitized fields. *)
Lemma sanitized_nonempty (b : Body) :
  passes_validation b ->
  1 <= String.length (body_name (sanitized b)) /\
  1 <= String.length (body_description (sanitized b)).
Proof.
  intros V. apply passes_validation_iff in V. destruct V as [Hn Hd].
  unfold sanitized, name_chain, description_chain, required_chain. simpl.
  pose proof (escape_length (Validator.trim (body_name b))).
  pose proof (escape_length (Validator.trim (body_description b))).
  lia.
Qed.

Lemma named_log_call (n : string) (c : ResCall) (s : State) :
  named n (log_call c s) = named n s.
Proof. reflexivity. Qed.

Lemma named_append (n : string) (doc : CategoryDoc) (s : State) :
  named n s = [] ->
  Category.same_name n doc = true ->
  named n (set_categories (categories s ++ [doc]) s) = [doc].
Proof.
  unfold named, set_categories. cbn [categories]. intros H E.
  rewrite filter_app, H. simpl. now rewrite E.
Qed.

(** The three handlers that write keep identifiers unique. *)
Lemma unique_ids_preserved (req : Request) (s : State) :
  unique_ids s ->
  unique_ids (category_create_post req s) /\
  unique_ids (category_update_post req s) /\
  unique_ids (category_delete_post req s).
Proof.
  unfold unique_ids. intros U.
  assert (D : {passes_validation (body req)} + {validationResult (body req) <> []}).
  { unfold passes_validation.
    destruct (validationResult (body req)); [now left|now right]. }
  split; [|split].
  - destruct D as [V|NV].
    + rewrite (category_create_post_valid _ _ V). cbv zeta.
      destruct (named _ s); [|exact U].
      match goal with
      | |- context [Category.invalid_paths ?d] =>
          destruct (Category.invalid_paths d)
      end; [|exact U].
      cbn [log_call set_categories categories]. now apply append_fresh_NoDup.
    + now rewrite (category_create_post_invalid _ _ NV).
  - destruct D as [V|NV].
    + rewrite (category_update_post_valid _ _ V).
      destruct (Category.lookup (params_id req) (categories s)); [|exact U].
      cbn [log_call set_categories categories]. now rewrite update_first_ids.
    + now rewrite (category_update_post_invalid _ _ NV).
  - rewrite category_delete_post_run.
    destruct (dependents (params_id req) s); [|exact U].
    cbn [log_call set_categories categories]. now apply remove_first_NoDup.
Qed.

(* ================================================================= *)
(** ** Validation failures *)

(** C6.  A create or update submission that fails validation.  The errors
    are those of every failing field, the name's before the description's:
    a failing field always has its error in the list, whether or not the
    other field fails, and nothing else is in the list.  The form is
    rendered again with the document built from the sanitized values and
    with the whole list of errors, and neither collection is written. *)
Theorem validation_failure_redisplays_form (req : Request) (s : State) :
  ~ passes_validation (body req) ->
  let errors := validationResult (body req) in
  let name_error :=
    mkFieldError "name" "Category name required"
      (Validator.trim (body_name (body req))) in
  let description_error :=
    mkFieldError "description" "Category description required"
      (Validator.trim (body_description (body req))) in
  let name' := Validator.escape (Validator.trim (body_name (body req))) in
  let description' :=
    Validator.escape (Validator.trim (body_description (body req))) in
  (field_fails (body_name (body req)) -> In name_error errors) /\
  (field_fails (body_description (body req)) -> In description_error errors) /\
  (field_fails (body_name (body req)) ->
   field_fails (body_description (body req)) ->
   errors = [name_error; description_error]) /\
  (forall e, In e errors ->
     (e = name_error /\ field_fails (body_name (body req))) \/
     (e = description_error /\ field_fails (body_description (body req)))) /\
  same_store s (category_create_post req s) /\
  responds s (category_create_post req s)
    [ResRender "category_form"
       [("title", VString "Create Category");
        ("category",
         VCategory (mkCategory (ObjectId.fresh (map cat_id (categories s)))
                      name' description'));
        ("errors", VErrors errors)]] /\
  same_store s (category_update_post req s) /\
  responds s (category_update_post req s)
    [ResRender "category_form"
       [("title", VString "Update Category");
        ("category", VCategory (mkCategory (params_id req) name' description'));
        ("errors", VErrors errors)]].
Proof.
  intros NV errors name_error description_error name' description'.
  assert (E : errors =
    (if (1 <=? String.length (Validator.trim (body_name (body req))))%nat
     then [] else [name_error]) ++
    (if (1 <=? String.length (Validator.trim (body_description (body req))))%nat
     then [] else [description_error])).
  { unfold errors, validationResult, name_chain, description_chain.
    now rewrite !required_chain_errors. }
  unfold field_fails.
  destruct (Nat.leb_spec 1
              (String.length (Validator.trim (body_name (body req)))))
    as [Hn|Hn];
  destruct (Nat.leb_spec 1
              (String.length (Validator.trim (body_description (body req)))))
    as [Hd|Hd]; simpl in E.
  - exfalso. apply NV. apply passes_validation_iff. split; assumption.
  - repeat split; try (intros; lia);
      try (rewrite category_create_post_invalid by exact NV; reflexivity);
      try (rewrite category_update_post_invalid by exact NV; reflexivity).
    + intros _. rewrite E. now left.
    + intros e. rewrite E. intros [<-|[]]. right. split; [reflexivity|lia].
  - repeat split; try (intros; lia);
      try (rewrite category_create_post_invalid by exact NV; reflexivity);
      try (rewrite category_update_post_invalid by exact NV; reflexivity).
    + intros _. rewrite E. now left.
    + intros e. rewrite E. intros [<-|[]]. left. split; [reflexivity|lia].
  - repeat split; try (intros; exact E);
      try (rewrite category_create_post_invalid by exact NV; reflexivity);
      try (rewrite category_update_post_invalid by exact NV; reflexivity).
    + intros _. rewrite E. now left.
    + intros _. rewrite E. right. now left.
    + intros e. rewrite E. intros [<-|[<-|[]]].
      * left. split; [reflexivity|lia].
      * right. split; [reflexivity|lia].
Qed.

Lemma validation_failure_redisplays_form_witness :
  ~ passes_validation blank_body /\
  validationResult blank_body
  = [mkFieldError "name" "Category name required" EmptyString;
     mkFieldError "description" "Category description required" EmptyString] /\
  same_store bare_store (category_create_post (mkRequest 0%N blank_body) bare_store).
Proof.
  assert (NV : ~ passes_validation blank_body) by discriminate.
  pose proof (validation_failure_redisplays_form
                (mkRequest 0%N blank_body) bare_store NV) as H.
  split; [exact NV|]. split.
  - exact (proj1 (proj2 (proj2 H)) eq_refl eq_refl).
  - exact (proj1 (proj2 (proj2 (proj2 (proj2 H))))).
Defined.

(** C4, as stated, fails: a name of 101 characters is accepted by the
    validation chain although it is longer than the declared maximum, and
    the create handler then fails in the store instead of answering with
    validation errors. *)
Lemma required_field_maximum_counterexample :
  snd (required_chain "name" "Category name required" long_name) = [] /\
  ~ String.length (Validator.trim long_name) <= 100 /\
  passes_validation (mkBody long_name "desc") /\
  calls (category_create_post (request 0%N long_name "desc") empty_store)
  = [ResNext (MongooseValidationError ["name"])].
Proof.
  split; [reflexivity|]. split; [|split; reflexivity].
  intros H. vm_compute in H.
  repeat (apply le_S_n in H). inversion H.
Qed.

(** C4, amended.  A required string field is accepted by its validation
    chain exactly when its length after trimming is at least 1; the chain
    sets no maximum.  A submission passes validation exactly when both
    fields are accepted; one that does not is never persisted, by create or
    by update.  The maximum of 100 characters belongs to the schema and is
    applied when a new document is saved: a create submission that passes
    validation, matches no stored name and has a sanitized name or
    description longer than 100 characters is rejected by the save, the
    error goes to [next], and nothing is persisted. *)
Theorem required_field_accepted_iff_nonempty
  (path msg raw : string) (req : Request) (s : State) :
  (snd (required_chain path msg raw) = [] <->
   1 <= String.length (Validator.trim raw)) /\
  (passes_validation (body req) <->
   1 <= String.length (Validator.trim (body_name (body req))) /\
   1 <= String.length (Validator.trim (body_description (body req)))) /\
  (~ passes_validation (body req) ->
   same_store s (category_create_post req s) /\
   same_store s (category_update_post req s)) /\
  (passes_validation (body req) ->
   named (body_name (sanitized (body req))) s = [] ->
   100 < String.length (body_name (sanitized (body req))) \/
   100 < String.length (body_description (sanitized (body req))) ->
   same_store s (category_create_post req s) /\
   exists paths,
     paths <> [] /\
     responds s (category_create_post req s)
       [ResNext (MongooseValidationError paths)]).
Proof.
  split; [apply required_chain_accepts|].
  split; [apply passes_validation_iff|].
  split.
  - intros NV.
    rewrite category_create_post_invalid, category_update_post_invalid
      by exact NV.
    split; apply same_store_log_call.
  - intros V Hnone Hlong.
    rewrite (category_create_post_valid _ _ V). cbv zeta. rewrite Hnone.
    match goal with
    | |- context [Category.invalid_paths ?d] =>
        destruct (Category.invalid_paths d) as [|p ps] eqn:E
    end.
    + exfalso. apply invalid_paths_nil in E. cbn [cat_name cat_description] in E.
      rewrite !path_ok_iff in E. lia.
    + split; [apply same_store_log_call|].
      exists (p :: ps). split; [discriminate|apply responds_log_call].
Qed.

Lemma required_field_accepted_iff_nonempty_witness :
  passes_validation (mkBody angle_name "desc") /\
  named (body_name (sanitized (mkBody angle_name "desc"))) empty_store = [] /\
  String.length (body_name (sanitized (mkBody angle_name "desc"))) = 104 /\
  same_store empty_store
    (category_create_post (request 0%N angle_name "desc") empty_store).
Proof.
  split; [reflexivity|]. split; [reflexivity|]. split; [reflexivity|].
  refine (proj1 (proj2 (proj2 (proj2
    (required_field_accepted_iff_nonempty "name" "Category name required"
       angle_name (request 0%N angle_name "desc") empty_store)))
    eq_refl eq_refl _)).
  left. vm_compute. repeat constructor.
Defined.

(* ================================================================= *)
(** ** Category create *)

(** What create does with a submission that passes validation and that the
    schema accepts. *)
Lemma category_create_post_accepted (req : Request) (s : State) :
  passes_validation (body req) ->
  String.length (body_name (sanitized (body req))) <= 100 ->
  String.length (body_description (sanitized (body req))) <= 100 ->
  let doc := mkCategory (ObjectId.fresh (map cat_id (categories s)))
               (body_name (sanitized (body req)))
               (body_description (sanitized (body req))) in
  category_create_post req s =
  match named (body_name (sanitized (body req))) s with
  | existing :: _ => log_call (ResRedirect (Category.url existing)) s
  | [] =>
      log_call (ResRedirect (Category.url doc))
        (set_categories (categories s ++ [doc]) s)
  end.
Proof.
  intros V Hn Hd doc. rewrite (category_create_post_valid _ _ V). cbv zeta.
  destruct (named (body_name (sanitized (body req))) s); [|reflexivity].
  fold doc. destruct (sanitized_nonempty _ V) as [Hn1 Hd1].
  assert (E : Category.invalid_paths doc = []).
  { apply invalid_paths_nil. unfold doc. cbn [cat_name cat_description].
    rewrite !path_ok_iff. lia. }
  now rewrite E.
Qed.

(** What create does with a submission that passes validation when a
    stored name matches: the schema is not consulted. *)
Lemma category_create_post_existing (req : Request) (s : State)
  (existing : CategoryDoc) (rest : list CategoryDoc) :
  passes_validation (body req) ->
  named (body_name (sanitized (body req))) s = existing :: rest ->
  category_create_post req s
  = log_call (ResRedirect (Category.url existing)) s.
Proof.
  intros V E. rewrite (category_create_post_valid _ _ V). cbv zeta.
  now rewrite E.
Qed.

(** C1, as stated, fails: a name of 26 angle brackets passes validation and
    matches no stored name, yet the create handler persists no record and
    redirects nowhere; the save is rejected because the sanitized name is
    104 characters long. *)
Lemma category_create_post_counterexample :
  passes_validation (mkBody angle_name "desc") /\
  String.length (Validator.trim angle_name) = 26 /\
  named (body_name (sanitized (mkBody angle_name "desc"))) empty_store = [] /\
  categories (category_create_post (request 0%N angle_name "desc") empty_store)
  = [] /\
  calls (category_create_post (request 0%N angle_name "desc") empty_store)
  = [ResNext (MongooseValidationError ["name"])].
Proof. repeat split. Qed.

(** C1, amended.  For a create submission that passes validation and whose
    sanitized name and description are at most 100 characters long: when a
    stored Category has the same name up to case, nothing is persisted and
    the caller is redirected to the first such Category; otherwise exactly
    one document is appended, under an identifier not in use, with the
    sanitized name and description, and the caller is redirected to it.
    A second submission that passes validation and whose name differs from
    the first in case only persists nothing and is redirected to the same
    URL; when no stored name matched before the first submission, the two
    leave exactly one Category with that name. *)
Theorem category_create_post_idempotent_by_name (req req2 : Request) (s : State) :
  passes_validation (body req) ->
  let name' := body_name (sanitized (body req)) in
  let description' := body_description (sanitized (body req)) in
  String.length name' <= 100 ->
  String.length description' <= 100 ->
  let s1 := category_create_post req s in
  items s1 = items s /\
  (forall existing rest, named name' s = existing :: rest ->
     categories s1 = categories s /\
     responds s s1 [ResRedirect (Category.url existing)]) /\
  (named name' s = [] ->
     exists doc,
       categories s1 = categories s ++ [doc] /\
       cat_name doc = name' /\ cat_description doc = description' /\
       Category.lookup (cat_id doc) (categories s) = None /\
       responds s s1 [ResRedirect (Category.url doc)]) /\
  (passes_validation (body req2) ->
   Collation.fold (body_name (body req2)) = Collation.fold (body_name (body req)) ->
   let s2 := category_create_post req2 s1 in
   categories s2 = categories s1 /\
   (exists url,
      responds s s1 [ResRedirect url] /\ responds s1 s2 [ResRedirect url]) /\
   (named name' s = [] ->
      exists doc,
        categories s2 = categories s ++ [doc] /\
        named name' s2 = [doc] /\
        named (body_name (sanitized (body req2))) s2 = [doc])).
Proof.
  intros V name' description' Hn Hd s1.
  pose proof (category_create_post_accepted req s V Hn Hd) as R.
  cbv zeta in R. fold name' description' s1 in R.
  set (doc := mkCategory (ObjectId.fresh (map cat_id (categories s)))
                name' description') in R.
  destruct (named name' s) as [|existing rest] eqn:E.
  - (* no stored name matches *)
    assert (N1 : named name' s1 = [doc]).
    { rewrite R, named_log_call. apply named_append; [exact E|].
      apply (same_name_refl doc). }
    split; [now rewrite R|]. split; [discriminate|]. split.
    + intros _. exists doc. rewrite R.
      repeat split. apply fresh_unused.
    + intros V2 F s2.
      assert (N2 : named (body_name (sanitized (body req2))) s1 = [doc]).
      { rewrite <- N1. apply named_fold. now apply sanitized_name_fold. }
      assert (R2 : s2 = log_call (ResRedirect (Category.url doc)) s1).
      { unfold s2. now apply category_create_post_existing with (rest := []). }
      split; [now rewrite R2|]. split.
      * exists (Category.url doc). split; [now rewrite R|now rewrite R2].
      * intros _. exists doc. rewrite R2, !named_log_call.
        split; [now rewrite R|]. split; assumption.
  - (* a stored name matches *)
    split; [now rewrite R|]. split.
    + intros existing' rest' H. injection H as <- <-. now rewrite R.
    + split; [discriminate|]. intros V2 F s2.
      assert (N2 : named (body_name (sanitized (body req2))) s1
                   = existing :: rest).
      { rewrite R, named_log_call, <- E. apply named_fold.
        now apply sanitized_name_fold. }
      assert (R2 : s2 = log_call (ResRedirect (Category.url existing)) s1).
      { unfold s2. now apply category_create_post_existing with (rest := rest). }
      split; [now rewrite R2|]. split; [|discriminate].
      exists (Category.url existing).
      split; [now rewrite R|now rewrite R2].
Qed.

Lemma category_create_post_idempotent_by_name_witness :
  passes_validation (mkBody "Widgets" "desc") /\
  passes_validation (mkBody "widgets" "other desc") /\
  Collation.fold "widgets" = Collation.fold "Widgets" /\
  named "Widgets" (mkState [] [bolt] []) = [] /\
  exists doc,
    categories
      (category_create_post (request 0%N "widgets" "other desc")
         (category_create_post (request 0%N "Widgets" "desc")
            (mkState [] [bolt] [])))
    = [] ++ [doc] /\
    named "Widgets"
      (category_create_post (request 0%N "widgets" "other desc")
         (category_create_post (request 0%N "Widgets" "desc")
            (mkState [] [bolt] [])))
    = [doc] /\
    named "widgets"
      (category_create_post (request 0%N "widgets" "other desc")
         (category_create_post (request 0%N "Widgets" "desc")
            (mkState [] [bolt] [])))
    = [doc].
Proof.
  split; [reflexivity|]. split; [reflexivity|]. split; [reflexivity|].
  split; [reflexivity|].
  assert (Hn : String.length "Widgets" <= 100) by (simpl; lia).
  assert (Hd : String.length "desc" <= 100) by (simpl; lia).
  exact (proj2 (proj2 (proj2 (proj2 (proj2
    (category_create_post_idempotent_by_name
       (request 0%N "Widgets" "desc") (request 0%N "widgets" "other desc")
       (mkState [] [bolt] []) eq_refl Hn Hd)))
    eq_refl eq_refl)) eq_refl).
Defined.

(* ================================================================= *)
(** ** The remaining handlers, and all handlers together *)

Lemma category_list_run (req : Request) (s : State) :
  category_list req s =
  log_call (ResRender "category_list"
    [("title", VString "Category List");
     ("category_list", VCategories (categories s))]) s.
Proof. reflexivity. Qed.

Lemma category_create_get_run (req : Request) (s : State) :
  category_create_get req s =
  log_call (ResRender "category_form"
    [("title", VString "Create Category")]) s.
Proof. reflexivity. Qed.

Lemma category_update_get_run (req : Request) (s : State) :
  category_update_get req s =
  match Category.lookup (params_id req) (categories s) with
  | None => log_call (ResNext (HttpError "Category not found" 404)) s
  | Some c =>
      log_call (ResRender "category_form"
        [("title", VString "Update Category"); ("category", VCategory c)]) s
  end.
Proof.
  unfold category_update_get. run_handler.
  now destruct (Category.lookup (params_id req) (categories s)).
Qed.

(** A submission either passes validation or has errors. *)
Lemma validation_cases (b : Body) :
  {passes_validation b} + {validationResult b <> []}.
Proof.
  unfold passes_validation.
  destruct (validationResult b); [now left|now right].
Qed.

(** The three outcomes of create, whatever the submission: the store is
    left alone, or one document is appended under the generated identifier
    with a name that no stored Category has. *)
Lemma category_create_post_outcomes (req : Request) (s : State) :
  (exists c, category_create_post req s = log_call c s) \/
  (exists doc,
     category_create_post req s
     = log_call (ResRedirect (Category.url doc))
         (set_categories (categories s ++ [doc]) s) /\
     cat_id doc = ObjectId.fresh (map cat_id (categories s)) /\
     named (cat_name doc) s = [] /\
     Category.invalid_paths doc = []).
Proof.
  destruct (validation_cases (body req)) as [V|NV].
  - rewrite (category_create_post_valid _ _ V). cbv zeta.
    destruct (named (body_name (sanitized (body req))) s) eqn:E.
    + match goal with
      | |- context [Category.invalid_paths ?d] =>
          destruct (Category.invalid_paths d) eqn:P
      end.
      * right. eexists. split; [reflexivity|]. repeat split; assumption.
      * left. eexists. reflexivity.
    + left. eexists. reflexivity.
  - left. rewrite (category_create_post_invalid _ _ NV). eexists. reflexivity.
Qed.

(** The two outcomes of update: the store is left alone, or the fields of
    the document under the requested identifier are overwritten. *)
Lemma category_update_post_outcomes (req : Request) (s : State) :
  (exists c, category_update_post req s = log_call c s) \/
  (exists upd c,
     category_update_post req s
     = log_call c
         (set_categories
            (Category.update_first (params_id req) upd (categories s)) s)).
Proof.
  destruct (validation_cases (body req)) as [V|NV].
  - rewrite (category_update_post_valid _ _ V).
    destruct (Category.lookup (params_id req) (categories s)).
    + right. eexists. eexists. reflexivity.
    + left. eexists. reflexivity.
  - left. rewrite (category_update_post_invalid _ _ NV). eexists. reflexivity.
Qed.

(** The two outcomes of delete-execution. *)
Lemma category_delete_post_outcomes (req : Request) (s : State) :
  (dependents (params_id req) s <> [] /\
   exists c, category_delete_post req s = log_call c s) \/
  (dependents (params_id req) s = [] /\
   category_delete_post req s
   = log_call (ResRedirect "/categories")
       (set_categories
          (Category.remove_first (params_id req) (categories s)) s)).
Proof.
  rewrite category_delete_post_run.
  destruct (dependents (params_id req) s).
  - right. split; reflexivity.
  - left. split; [discriminate|]. eexists. reflexivity.
Qed.

(** The update form by id.  It is answered with the error "Category not found",
    status 404, exactly when no Category has the requested id; otherwise
    the form is rendered with the stored Category. *)
Theorem category_update_get_not_found_iff (req : Request) (s : State) :
  let s' := category_update_get req s in
  (responds s s' [ResNext (HttpError "Category not found" 404)] <->
   Category.lookup (params_id req) (categories s) = None) /\
  (forall c,
     responds s s'
       [ResRender "category_form"
          [("title", VString "Update Category"); ("category", VCategory c)]] <->
     Category.lookup (params_id req) (categories s) = Some c).
Proof.
  intros s'. subst s'. rewrite category_update_get_run.
  destruct (Category.lookup (params_id req) (categories s)) as [c|].
  - split.
    + split; [|discriminate]. intros H.
      pose proof (responds_inj _ _ _ _ H (responds_log_call _ _)) as D.
      discriminate D.
    + intros c'. split.
      * intros H.
        pose proof (responds_inj _ _ _ _ H (responds_log_call _ _)) as D.
        now injection D as ->.
      * intros H. injection H as <-. apply responds_log_call.
  - split.
    + split; [reflexivity|]. intros _. apply responds_log_call.
    + intros c'. split; [|discriminate]. intros H.
      pose proof (responds_inj _ _ _ _ H (responds_log_call _ _)) as D.
      discriminate D.
Qed.

Lemma category_update_get_not_found_iff_witness :
  Category.lookup 2%N (categories two_store) = Some gadgets /\
  responds two_store (category_update_get (get_request 2%N) two_store)
    [ResRender "category_form"
       [("title", VString "Update Category"); ("category", VCategory gadgets)]].
Proof.
  split; [reflexivity|].
  apply (proj2 (category_update_get_not_found_iff (get_request 2%N) two_store)).
  reflexivity.
Defined.

(** X2.  The six handlers that answer GET requests never write: whatever
    the request, both collections are left as they were. *)
Theorem get_handlers_never_write (req : Request) (s : State) :
  same_store s (index req s) /\
  same_store s (category_list req s) /\
  same_store s (category_detail req s) /\
  same_store s (category_create_get req s) /\
  same_store s (category_delete_get req s) /\
  same_store s (category_update_get req s).
Proof.
  rewrite index_run, category_list_run, category_detail_run,
    category_create_get_run, category_delete_get_run, category_update_get_run.
  destruct (Category.lookup (params_id req) (categories s));
    repeat split.
Qed.

(** The handlers by id, on a response that takes every call: each makes exactly one call
    on [res] or [next], except the delete confirmation, which makes one
    call when the Category is stored and two when it is not. *)
Theorem handlers_respond_once (req : Request) (s : State) :
  responds_once s (index req s) /\
  responds_once s (category_list req s) /\
  responds_once s (category_detail req s) /\
  responds_once s (category_create_get req s) /\
  responds_once s (category_create_post req s) /\
  responds_once s (category_delete_post req s) /\
  responds_once s (category_update_get req s) /\
  responds_once s (category_update_post req s) /\
  (exists cs,
     responds s (category_delete_get req s) cs /\
     List.length cs =
     match Category.lookup (params_id req) (categories s) with
     | Some _ => 1
     | None => 2
     end).
Proof.
  unfold responds_once.
  rewrite index_run, category_list_run, category_detail_run,
    category_create_get_run, category_delete_get_run, category_update_get_run.
  repeat split.
  - eexists. apply responds_log_call.
  - eexists. apply responds_log_call.
  - destruct (Category.lookup _ _); eexists; apply responds_log_call.
  - eexists. apply responds_log_call.
  - destruct (category_create_post_outcomes req s) as [[c ->]|[doc [-> _]]];
      eexists; reflexivity.
  - destruct (category_delete_post_outcomes req s) as [[_ [c ->]]|[_ ->]];
      eexists; reflexivity.
  - destruct (Category.lookup _ _); eexists; apply responds_log_call.
  - destruct (category_update_post_outcomes req s) as [[c ->]|[upd [c ->]]];
      eexists; reflexivity.
  - destruct (Category.lookup _ _).
    + eexists. split; [apply responds_log_call|reflexivity].
    + eexists [_; _]. split; [|reflexivity].
      unfold responds. cbn [log_call calls]. now rewrite <- app_assoc.
Qed.

(* ================================================================= *)
(** ** Invariants of the store *)

Lemma lookup_some_iff_in (id : ObjectId.t) (l : list CategoryDoc) :
  Category.lookup id l <> None <-> In id (map cat_id l).
Proof.
  rewrite lookup_none_not_in.
  destruct (in_dec N.eq_dec id (map cat_id l)); tauto.
Qed.

Lemma lookup_append (id : ObjectId.t) (l : list CategoryDoc) (d : CategoryDoc) :
  Category.lookup id (l ++ [d]) =
  match Category.lookup id l with
  | Some c => Some c
  | None => if Category.has_id id d then Some d else None
  end.
Proof.
  unfold Category.lookup. induction l as [|c l IH]; simpl; [reflexivity|].
  now destruct (Category.has_id id c).
Qed.

Lemma remove_first_in (id : ObjectId.t) (l : list CategoryDoc) (c : CategoryDoc) :
  In c (Category.remove_first id l) -> In c l.
Proof.
  induction l as [|x l IH]; simpl; [tauto|].
  destruct (Category.has_id id x); simpl; [now right|].
  intros [H|H]; [now left|right; now apply IH].
Qed.

Lemma remove_first_NoDup_map {A : Type} (f : CategoryDoc -> A)
  (id : ObjectId.t) (l : list CategoryDoc) :
  NoDup (map f l) -> NoDup (map f (Category.remove_first id l)).
Proof.
  induction l as [|c l IH]; simpl; intros ND; [constructor|].
  inversion ND as [|x xs Hnotin ND']; subst.
  destruct (Category.has_id id c); [assumption|].
  simpl. constructor; [|now apply IH].
  intros H. apply Hnotin. apply in_map_iff in H. destruct H as [d [E Hd]].
  apply in_map_iff. exists d. split; [exact E|].
  eapply remove_first_in. exact Hd.
Qed.

Lemma named_nil_not_in (name : string) (s : State) :
  named name s = [] ->
  ~ In (Collation.fold name)
       (map (fun c => Collation.fold (cat_name c)) (categories s)).
Proof.
  unfold named. intros H Hin. apply in_map_iff in Hin.
  destruct Hin as [c [E Hc]].
  assert (Hf : In c (filter (Category.same_name name) (categories s))).
  { apply filter_In. split; [exact Hc|].
    unfold Category.same_name, Collation.eqb. rewrite E.
    apply String.eqb_refl. }
  rewrite H in Hf. exact Hf.
Qed.

(** X4.  No handler orphans an Item.  When every Item references a stored
    Category, it still does after a create, an update or a
    delete-execution, whatever the request: the delete is the only one that
    removes a Category, and it removes none that an Item references. *)
Theorem handlers_keep_referential_integrity (req : Request) (s : State) :
  referential_integrity s ->
  referential_integrity (category_create_post req s) /\
  referential_integrity (category_update_post req s) /\
  referential_integrity (category_delete_post req s).
Proof.
  unfold referential_integrity. intros RI. split; [|split].
  - destruct (category_create_post_outcomes req s) as [[c ->]|[doc [-> _]]];
      [exact RI|].
    cbn [log_call set_categories categories items]. intros i Hi.
    apply lookup_some_iff_in. rewrite map_app. apply in_or_app. left.
    apply lookup_some_iff_in. now apply RI.
  - destruct (category_update_post_outcomes req s) as [[c ->]|[upd [c ->]]];
      [exact RI|].
    cbn [log_call set_categories categories items]. intros i Hi.
    apply lookup_some_iff_in. rewrite update_first_ids.
    apply lookup_some_iff_in. now apply RI.
  - destruct (category_delete_post_outcomes req s) as [[_ [c ->]]|[D ->]];
      [exact RI|].
    cbn [log_call set_categories categories items]. intros i Hi.
    rewrite remove_first_others; [now apply RI|].
    intros E.
    assert (Hd : In i (dependents (params_id req) s))
      by (apply dependents_spec; split; assumption).
    rewrite D in Hd. exact Hd.
Qed.

Lemma handlers_keep_referential_integrity_witness :
  referential_integrity stocked_store /\
  referential_integrity
    (category_delete_post (get_request 1%N) stocked_store).
Proof.
  assert (RI : referential_integrity stocked_store).
  { intros i [<-|[]]. discriminate. }
  split; [exact RI|].
  exact (proj2 (proj2
    (handlers_keep_referential_integrity (get_request 1%N) stocked_store RI))).
Defined.

(** X5.  Identifiers stay unique: when no two stored Categories share an
    id, none do after any handler has run, whatever the request. *)
Theorem handlers_keep_unique_ids (req : Request) (s : State) :
  unique_ids s ->
  unique_ids (index req s) /\
  unique_ids (category_list req s) /\
  unique_ids (category_detail req s) /\
  unique_ids (category_create_get req s) /\
  unique_ids (category_create_post req s) /\
  unique_ids (category_delete_get req s) /\
  unique_ids (category_delete_post req s) /\
  unique_ids (category_update_get req s) /\
  unique_ids (category_update_post req s).
Proof.
  intros U. destruct (unique_ids_preserved req s U) as [Hc [Hu Hd]].
  rewrite index_run, category_list_run, category_detail_run,
    category_create_get_run, category_delete_get_run, category_update_get_run.
  destruct (Category.lookup (params_id req) (categories s));
    repeat split; assumption.
Qed.

Lemma handlers_keep_unique_ids_witness :
  unique_ids two_store /\
  unique_ids (category_create_post (request 0%N "Tools" "Hand tools") two_store).
Proof.
  assert (U : unique_ids two_store).
  { unfold unique_ids. simpl. repeat constructor; simpl.
    - intros [H|[]]. discriminate H.
    - intros []. }
  split; [exact U|].
  exact (proj1 (proj2 (proj2 (proj2 (proj2
    (handlers_keep_unique_ids (request 0%N "Tools" "Hand tools")
       two_store U)))))).
Defined.

(** X6.  Names stay unique under create and delete: when no two stored
    Categories have the same name up to case, none do after a create or a
    delete-execution, whatever the request. *)
Theorem create_and_delete_keep_unique_names (req : Request) (s : State) :
  unique_names s ->
  unique_names (category_create_post req s) /\
  unique_names (category_delete_post req s).
Proof.
  unfold unique_names. intros U. split.
  - destruct (category_create_post_outcomes req s)
      as [[c ->]|[doc [-> [_ [Hnone _]]]]]; [exact U|].
    cbn [log_call set_categories categories]. rewrite map_app. simpl.
    apply NoDup_app; [exact U|repeat constructor; intros []|].
    intros x Hx [<-|[]]. revert Hx. now apply named_nil_not_in.
  - destruct (category_delete_post_outcomes req s) as [[_ [c ->]]|[_ ->]];
      [exact U|].
    cbn [log_call set_categories categories]. now apply remove_first_NoDup_map.
Qed.

Lemma create_and_delete_keep_unique_names_witness :
  unique_names two_store /\
  unique_names (category_create_post (request 0%N "WIDGETS" "again") two_store).
Proof.
  assert (U : unique_names two_store).
  { unfold unique_names. simpl. repeat constructor; simpl.
    - intros [H|[]]. discriminate H.
    - intros []. }
  split; [exact U|].
  exact (proj1 (create_and_delete_keep_unique_names
                  (request 0%N "WIDGETS" "again") two_store U)).
Defined.

(* ================================================================= *)
(** ** What update does not check *)

Lemma update_first_keeps_others (id : ObjectId.t) (upd c : CategoryDoc)
  (l : list CategoryDoc) :
  In c l -> cat_id c <> id -> In c (Category.update_first id upd l).
Proof.
  intros Hin Hid. induction l as [|x l IH]; simpl in *; [exact Hin|].
  destruct (Category.has_id id x) eqn:E.
  - destruct Hin as [->|Hin]; [|now right].
    unfold Category.has_id, ObjectId.eqb in E. apply N.eqb_eq in E.
    contradiction.
  - destruct Hin as [->|Hin]; [now left|right; now apply IH].
Qed.

Lemma update_first_in (id : ObjectId.t) (upd old : CategoryDoc)
  (l : list CategoryDoc) :
  Category.lookup id l = Some old ->
  In (mkCategory (cat_id old) (cat_name upd) (cat_description upd))
     (Category.update_first id upd l).
Proof.
  intros H. apply (update_first_lookup id upd) in H.
  unfold Category.lookup in H. apply find_some in H. tauto.
Qed.

Lemma NoDup_map_eq {A B : Type} (f : A -> B) (l : list A) (a b : A) :
  NoDup (map f l) -> In a l -> In b l -> f a = f b -> a = b.
Proof.
  induction l as [|x l IH]; simpl; intros ND Ha Hb E; [contradiction|].
  inversion ND as [|y ys Hnotin ND']; subst.
  destruct Ha as [->|Ha], Hb as [->|Hb].
  - reflexivity.
  - exfalso. apply Hnotin. rewrite E. now apply in_map.
  - exfalso. apply Hnotin. rewrite <- E. now apply in_map.
  - now apply IH.
Qed.

(** X7.  Update does not look for an existing name.  When an update passes
    validation for a stored Category and another stored Category already
    has the submitted name up to case, both carry that name afterwards:
    names are no longer unique. *)
Theorem category_update_post_duplicates_name
  (req : Request) (s : State) (old other : CategoryDoc) :
  passes_validation (body req) ->
  Category.lookup (params_id req) (categories s) = Some old ->
  In other (categories s) ->
  cat_id other <> params_id req ->
  Category.same_name (body_name (sanitized (body req))) other = true ->
  let s' := category_update_post req s in
  let doc := mkCategory (params_id req) (body_name (sanitized (body req)))
               (body_description (sanitized (body req))) in
  In other (named (body_name (sanitized (body req))) s') /\
  In doc (named (body_name (sanitized (body req))) s') /\
  ~ unique_names s'.
Proof.
  intros V Hold Hother Hid Hsame s' doc. subst s'.
  rewrite (category_update_post_valid _ _ V), Hold. fold doc.
  unfold named, unique_names. cbn [log_call set_categories categories].
  assert (I1 : In other (Category.update_first (params_id req) doc (categories s)))
    by now apply update_first_keeps_others.
  assert (I2 : In doc (Category.update_first (params_id req) doc (categories s))).
  { pose proof (update_first_in _ doc _ _ Hold) as H.
    rewrite (lookup_has_id _ _ _ Hold) in H. exact H. }
  split; [apply filter_In; split; assumption|].
  split; [apply filter_In; split; [exact I2|apply (same_name_refl doc)]|].
  intros ND. apply Hid.
  assert (E : other = doc).
  { apply (NoDup_map_eq _ _ _ _ ND I1 I2).
    unfold Category.same_name, Collation.eqb in Hsame.
    apply String.eqb_eq in Hsame. exact Hsame. }
  now rewrite E.
Qed.

Lemma category_update_post_duplicates_name_witness :
  passes_validation (mkBody "widgets" "copy") /\
  Category.lookup 2%N (categories two_store) = Some gadgets /\
  ~ unique_names (category_update_post (request 2%N "widgets" "copy") two_store).
Proof.
  split; [reflexivity|]. split; [reflexivity|].
  refine (proj2 (proj2
    (category_update_post_duplicates_name
       (request 2%N "widgets" "copy") two_store gadgets widgets
       eq_refl eq_refl _ _ eq_refl))).
  - now left.
  - discriminate.
Defined.

(** X8.  Update does not apply the schema's maximum.  When an update
    passes validation for a stored Category and the sanitized name is
    longer than 100 characters, the document stored under that id
    afterwards carries the long name, a document the schema's validators
    reject. *)
Theorem category_update_post_skips_schema
  (req : Request) (s : State) (old : CategoryDoc) :
  passes_validation (body req) ->
  Category.lookup (params_id req) (categories s) = Some old ->
  100 < String.length (body_name (sanitized (body req))) ->
  let doc := mkCategory (params_id req) (body_name (sanitized (body req)))
               (body_description (sanitized (body req))) in
  Category.lookup (params_id req)
    (categories (category_update_post req s)) = Some doc /\
  Category.invalid_paths doc <> [].
Proof.
  intros V Hold Hlong doc.
  rewrite (category_update_post_valid _ _ V), Hold. fold doc.
  cbn [log_call set_categories categories]. split.
  - rewrite (update_first_lookup _ _ _ _ Hold).
    now rewrite (lookup_has_id _ _ _ Hold).
  - intros E. apply invalid_paths_nil in E. destruct E as [E _].
    apply path_ok_iff in E. unfold doc in E. cbn [cat_name] in E. lia.
Qed.

Lemma category_update_post_skips_schema_witness :
  passes_validation (mkBody long_name "desc") /\
  Category.lookup 1%N (categories bare_store) = Some widgets /\
  Category.lookup 1%N
    (categories (category_update_post (request 1%N long_name "desc") bare_store))
  = Some (mkCategory 1%N long_name "desc").
Proof.
  split; [reflexivity|]. split; [reflexivity|].
  refine (proj1 (category_update_post_skips_schema
                   (request 1%N long_name "desc") bare_store widgets
                   eq_refl eq_refl _)).
  vm_compute. repeat constructor.
Defined.

(* ================================================================= *)
(** ** How the handlers compose *)

Lemma update_first_again (id : ObjectId.t) (upd : CategoryDoc)
  (l : list CategoryDoc) :
  Category.update_first id upd (Category.update_first id upd l)
  = Category.update_first id upd l.
Proof.
  induction l as [|c l IH]; simpl; [reflexivity|].
  destruct (Category.has_id id c) eqn:E; simpl.
  - unfold Category.has_id in *. simpl. now rewrite E.
  - now rewrite E, IH.
Qed.

(** X9.  The confirmation view tells what the execution will do.  For a
    stored Category, the delete confirmation renders the Category with the
    Items that reference it; a delete-execution run next removes the
    Category exactly when that list is empty, and otherwise leaves both
    collections as they were. *)
Theorem delete_confirmation_agrees_with_execution
  (req : Request) (s : State) (c : CategoryDoc) :
  unique_ids s ->
  Category.lookup (params_id req) (categories s) = Some c ->
  let s1 := category_delete_get req s in
  let s2 := category_delete_post req s1 in
  responds s s1
    [ResRender "category_delete"
       [("title", VString "Delete Category");
        ("category", VCategory c);
        ("category_items", VItems (dependents (params_id req) s))]] /\
  (dependents (params_id req) s = [] <->
   Category.lookup (params_id req) (categories s2) = None) /\
  (dependents (params_id req) s <> [] -> same_store s s2).
Proof.
  intros U Hc s1 s2. subst s2 s1.
  rewrite category_delete_get_run, Hc, category_delete_post_run.
  split; [apply responds_log_call|].
  change (dependents (params_id req) (log_call _ s))
    with (dependents (params_id req) s).
  destruct (dependents (params_id req) s) as [|i deps].
  - cbn [log_call set_categories categories]. split.
    + split; [intros _; now apply remove_first_gone|reflexivity].
    + congruence.
  - cbn [log_call categories]. split.
    + split; [discriminate|]. rewrite Hc. discriminate.
    + intros _. split; reflexivity.
Qed.

Lemma delete_confirmation_agrees_with_execution_witness :
  unique_ids two_store /\
  Category.lookup 2%N (categories two_store) = Some gadgets /\
  Category.lookup 2%N
    (categories (category_delete_post (get_request 2%N)
                   (category_delete_get (get_request 2%N) two_store)))
  = None.
Proof.
  assert (U : unique_ids two_store).
  { unfold unique_ids. simpl. repeat constructor; simpl.
    - intros [H|[]]. discriminate H.
    - intros []. }
  split; [exact U|]. split; [reflexivity|].
  exact (proj1 (proj1 (proj2
    (delete_confirmation_agrees_with_execution
       (get_request 2%N) two_store gadgets U eq_refl))) eq_refl).
Defined.

(** By id: a deleted Category is gone for the other handlers.  After a
    delete-execution for an id that no Item references, the detail page and
    the update form for that id are both answered with the error "Category
    not found", status 404. *)
Theorem deleted_category_is_not_found (req : Request) (s : State) :
  unique_ids s ->
  dependents (params_id req) s = [] ->
  let s1 := category_delete_post req s in
  responds s1 (category_detail req s1)
    [ResNext (HttpError "Category not found" 404)] /\
  responds s1 (category_update_get req s1)
    [ResNext (HttpError "Category not found" 404)].
Proof.
  intros U D s1.
  assert (G : Category.lookup (params_id req) (categories s1) = None).
  { unfold s1. rewrite category_delete_post_run, D.
    cbn [log_call set_categories categories]. now apply remove_first_gone. }
  rewrite category_detail_run, category_update_get_run, G.
  split; apply responds_log_call.
Qed.

Lemma deleted_category_is_not_found_witness :
  unique_ids bare_store /\
  dependents 1%N bare_store = [] /\
  calls (category_detail (get_request 1%N)
           (category_delete_post (get_request 1%N) bare_store))
  = [ResRedirect "/categories";
     ResNext (HttpError "Category not found" 404)].
Proof.
  assert (U : unique_ids bare_store).
  { unfold unique_ids. simpl. repeat constructor. intros []. }
  split; [exact U|]. split; [reflexivity|].
  exact (proj1 (deleted_category_is_not_found
                  (get_request 1%N) bare_store U eq_refl)).
Defined.

(** X11.  A created Category can be read back.  After a create that passes
    validation, fits the schema and matches no stored name, the caller is
    redirected to the URL of a document that carries the sanitized name and
    description; the detail page for that document's id renders it, and the
    list page renders the Categories stored before followed by it. *)
Theorem created_category_is_found (req : Request) (s : State) :
  passes_validation (body req) ->
  String.length (body_name (sanitized (body req))) <= 100 ->
  String.length (body_description (sanitized (body req))) <= 100 ->
  named (body_name (sanitized (body req))) s = [] ->
  let s1 := category_create_post req s in
  exists doc,
    cat_name doc = Validator.escape (Validator.trim (body_name (body req))) /\
    cat_description doc
    = Validator.escape (Validator.trim (body_description (body req))) /\
    responds s s1 [ResRedirect (Category.url doc)] /\
    forall req', params_id req' = cat_id doc ->
      responds s1 (category_detail req' s1)
        [ResRender "category_detail"
           [("title", VString "Category Detail");
            ("category", VCategory doc);
            ("category_items",
             VItemFields (map Item.select (dependents (cat_id doc) s)))]] /\
      responds s1 (category_list req' s1)
        [ResRender "category_list"
           [("title", VString "Category List");
            ("category_list", VCategories (categories s ++ [doc]))]].
Proof.
  intros V Hn Hd Hnone s1.
  pose proof (category_create_post_accepted req s V Hn Hd) as R.
  cbv zeta in R. rewrite Hnone in R. fold s1 in R.
  eexists. split; [|split; [|split]].
  3: { rewrite R. reflexivity. }
  - reflexivity.
  - reflexivity.
  - intros req' Hid. rewrite category_detail_run, category_list_run, Hid, R.
    cbn [log_call set_categories categories cat_id].
    rewrite lookup_append, fresh_unused.
    unfold Category.has_id, ObjectId.eqb. cbn [cat_id]. rewrite N.eqb_refl.
    split; apply responds_log_call.
Qed.

Lemma created_category_is_found_witness :
  passes_validation (mkBody " Tools " "Hand tools") /\
  named "Tools" two_store = [] /\
  exists doc,
    cat_name doc = "Tools" /\
    cat_description doc = "Hand tools" /\
    responds two_store
      (category_create_post (request 0%N " Tools " "Hand tools") two_store)
      [ResRedirect (Category.url doc)].
Proof.
  split; [reflexivity|]. split; [reflexivity|].
  assert (Hn : String.length "Tools" <= 100) by (simpl; lia).
  assert (Hd : String.length "Hand tools" <= 100) by (simpl; lia).
  destruct (created_category_is_found
              (request 0%N " Tools " "Hand tools") two_store
              eq_refl Hn Hd eq_refl) as [doc [H1 [H2 [H3 _]]]].
  exists doc. split; [exact H1|]. split; [exact H2|exact H3].
Defined.

(** X12.  An updated Category can be read back.  After an update that
    passes validation for a stored Category, the update form and the detail
    page for the same id render the document with that id and the sanitized
    name and description. *)
Theorem updated_category_is_shown (req : Request) (s : State) (old : CategoryDoc) :
  passes_validation (body req) ->
  Category.lookup (params_id req) (categories s) = Some old ->
  let s1 := category_update_post req s in
  let doc := mkCategory (params_id req)
               (Validator.escape (Validator.trim (body_name (body req))))
               (Validator.escape (Validator.trim (body_description (body req)))) in
  responds s1 (category_update_get req s1)
    [ResRender "category_form"
       [("title", VString "Update Category"); ("category", VCategory doc)]] /\
  responds s1 (category_detail req s1)
    [ResRender "category_detail"
       [("title", VString "Category Detail");
        ("category", VCategory doc);
        ("category_items",
         VItemFields (map Item.select (dependents (params_id req) s)))]].
Proof.
  intros V Hold s1 doc.
  assert (G : Category.lookup (params_id req) (categories s1) = Some doc).
  { unfold s1. rewrite (category_update_post_valid _ _ V), Hold.
    cbn [log_call set_categories categories].
    rewrite (update_first_lookup _ _ _ _ Hold).
    now rewrite (lookup_has_id _ _ _ Hold). }
  assert (I : items s1 = items s).
  { unfold s1. rewrite (category_update_post_valid _ _ V), Hold. reflexivity. }
  rewrite category_update_get_run, category_detail_run, G.
  unfold dependents. rewrite I.
  split; apply responds_log_call.
Qed.

Lemma updated_category_is_shown_witness :
  passes_validation (mkBody "Gizmos" "a & b") /\
  Category.lookup 2%N (categories two_store) = Some gadgets /\
  calls (category_update_get (get_request 2%N)
           (category_update_post (request 2%N "Gizmos" "a & b") two_store))
  = [ResRedirect "/category/000000000000000000000002";
     ResRender "category_form"
       [("title", VString "Update Category");
        ("category", VCategory (mkCategory 2%N "Gizmos" "a &amp; b"))]].
Proof.
  split; [reflexivity|]. split; [reflexivity|].
  exact (proj1 (updated_category_is_shown
                  (request 2%N "Gizmos" "a & b") two_store gadgets
                  eq_refl eq_refl)).
Defined.

(** X13.  Repeating a delete-execution changes nothing more: with unique
    identifiers, the second run of the same request leaves both collections
    as the first run left them. *)
Theorem category_delete_post_twice (req : Request) (s : State) :
  unique_ids s ->
  same_store (category_delete_post req s)
    (category_delete_post req (category_delete_post req s)).
Proof.
  intros U.
  rewrite (category_delete_post_run req (category_delete_post req s)).
  rewrite category_delete_post_run.
  destruct (dependents (params_id req) s) as [|i deps] eqn:D.
  - change (dependents (params_id req) (log_call _ (set_categories _ s)))
      with (dependents (params_id req) s).
    rewrite D. cbn [log_call set_categories categories].
    rewrite (remove_first_absent _ _ (remove_first_gone _ _ U)).
    split; reflexivity.
  - change (dependents (params_id req) (log_call _ s))
      with (dependents (params_id req) s).
    rewrite D. split; reflexivity.
Qed.

Lemma category_delete_post_twice_witness :
  unique_ids bare_store /\
  categories (category_delete_post (get_request 1%N)
                (category_delete_post (get_request 1%N) bare_store))
  = categories (category_delete_post (get_request 1%N) bare_store).
Proof.
  assert (U : unique_ids bare_store).
  { unfold unique_ids. simpl. repeat constructor. intros []. }
  split; [exact U|].
  exact (proj1 (category_delete_post_twice (get_request 1%N) bare_store U)).
Defined.

(** X14.  Repeating an update changes nothing more: whatever the request,
    the second run leaves both collections as the first run left them. *)
Theorem category_update_post_twice (req : Request) (s : State) :
  same_store (category_update_post req s)
    (category_update_post req (category_update_post req s)).
Proof.
  destruct (validation_cases (body req)) as [V|NV].
  - rewrite (category_update_post_valid req (category_update_post req s) V).
    rewrite (category_update_post_valid req s V).
    destruct (Category.lookup (params_id req) (categories s)) as [old|] eqn:E.
    + cbn [log_call set_categories categories].
      rewrite (update_first_lookup _ _ _ _ E).
      cbn [log_call set_categories categories].
      rewrite update_first_again. split; reflexivity.
    + cbn [log_call categories]. rewrite E. split; reflexivity.
  - rewrite (category_update_post_invalid _ (category_update_post req s) NV).
    split; reflexivity.
Qed.

(* ================================================================= *)
(** ** The sanitizers: trim *)

Section Trim.

Import Validator.

Lemma ltrim_all_space (s : string) : all_space (ltrim s) = all_space s.
Proof.
  induction s as [|c s IH]; simpl; [reflexivity|].
  destruct (is_space c) eqn:E; simpl; [exact IH|now rewrite E].
Qed.

Lemma rtrim_empty_iff (s : string) :
  rtrim s = EmptyString <-> all_space s = true.
Proof.
  induction s as [|c s IH]; simpl; [tauto|].
  destruct (rtrim s) eqn:R.
  - destruct (is_space c); simpl.
    + rewrite <- IH. tauto.
    + split; discriminate.
  - split; [discriminate|]. intros H. apply andb_true_iff in H.
    destruct H as [_ H]. apply IH in H. discriminate H.
Qed.

Lemma trim_empty_iff (s : string) :
  trim s = EmptyString <-> all_space s = true.
Proof. unfold trim. now rewrite rtrim_empty_iff, ltrim_all_space. Qed.

Lemma ltrim_starts (s : string) : starts_with_space (ltrim s) = false.
Proof.
  induction s as [|c s IH]; simpl; [reflexivity|].
  destruct (is_space c) eqn:E; simpl; [exact IH|exact E].
Qed.

Lemma rtrim_starts (s : string) :
  starts_with_space s = false -> starts_with_space (rtrim s) = false.
Proof.
  destruct s as [|c s]; simpl; [reflexivity|]. intros E.
  destruct (rtrim s); simpl; [now rewrite E|exact E].
Qed.

Lemma rtrim_ends (s : string) : ends_with_space (rtrim s) = false.
Proof.
  induction s as [|c s IH]; simpl; [reflexivity|].
  destruct (rtrim s) as [|x t] eqn:R.
  - destruct (is_space c) eqn:E; simpl; [reflexivity|exact E].
  - change (ends_with_space (String c (String x t)))
      with (ends_with_space (String x t)). exact IH.
Qed.

Lemma ltrim_fixed (s : string) : starts_with_space s = false -> ltrim s = s.
Proof. destruct s as [|c s]; simpl; [reflexivity|]. now intros ->. Qed.

Lemma rtrim_fixed (s : string) : ends_with_space s = false -> rtrim s = s.
Proof.
  induction s as [|c s IH]; [reflexivity|].
  destruct s as [|x t].
  - simpl. now intros ->.
  - intros H. change (ends_with_space (String x t) = false) in H.
    cbn [rtrim]. cbn [rtrim] in IH. rewrite (IH H). reflexivity.
Qed.

Lemma trim_fixed (s : string) : trimmed s -> trim s = s.
Proof.
  intros [Hs He]. unfold trim. rewrite (ltrim_fixed _ Hs).
  now apply rtrim_fixed.
Qed.

Lemma trim_trimmed (s : string) : trimmed (trim s).
Proof.
  unfold trim. split; [apply rtrim_starts, ltrim_starts|apply rtrim_ends].
Qed.

End Trim.

(** X15.  What [trim] leaves: a string whose first and last characters are
    not whitespace, which [trim] does not change again; and trimming a
    string that already has that shape returns it as it is. *)
Theorem trim_is_idempotent (s : string) :
  trimmed (Validator.trim s) /\
  Validator.trim (Validator.trim s) = Validator.trim s /\
  (trimmed s -> Validator.trim s = s).
Proof.
  split; [apply trim_trimmed|].
  split; [apply trim_fixed, trim_trimmed|apply trim_fixed].
Qed.

Lemma trim_is_idempotent_witness :
  trimmed "a b" /\ Validator.trim "a b" = "a b".
Proof.
  assert (T : trimmed "a b") by (split; reflexivity).
  split; [exact T|].
  exact (proj2 (proj2 (trim_is_idempotent "a b")) T).
Defined.

(** X16.  A required field is rejected exactly when it is empty or made of
    whitespace only: its validation chain reports an error if and only if
    every character of the submitted value is whitespace, and the error
    then carries the field's path, the message and an empty value. *)
Theorem required_chain_rejects_blank (path msg raw : string) :
  (snd (required_chain path msg raw) <> [] <-> all_space raw = true) /\
  (all_space raw = true ->
   snd (required_chain path msg raw) = [mkFieldError path msg EmptyString]).
Proof.
  rewrite required_chain_errors, <- trim_empty_iff.
  destruct (Validator.trim raw) as [|c t] eqn:T; simpl.
  - split; [|reflexivity]. split; [reflexivity|discriminate].
  - split; [|discriminate]. split; [congruence|discriminate].
Qed.

Lemma required_chain_rejects_blank_witness :
  all_space "   " = true /\
  snd (required_chain "name" "Category name required" "   ")
  = [mkFieldError "name" "Category name required" EmptyString].
Proof.
  split; [reflexivity|].
  exact (proj2 (required_chain_rejects_blank
                  "name" "Category name required" "   ") eq_refl).
Defined.

(* ================================================================= *)
(** ** The sanitizers: escape *)

Section Escape.

Import Validator.

Lemma occurs_append (c : ascii) (a b : string) :
  occurs c (a ++ b) = occurs c a || occurs c b.
Proof.
  induction a as [|x a IH]; simpl; [reflexivity|].
  now rewrite IH, orb_assoc.
Qed.

(** A replaced character is gone, when the replacement is free of it. *)
Lemma occurs_replace_same (c : ascii) (by_ s : string) :
  occurs c by_ = false -> occurs c (replace_all c by_ s) = false.
Proof.
  intros H. induction s as [|x s IH]; simpl; [reflexivity|].
  destruct (Ascii.eqb x c) eqn:E.
  - now rewrite occurs_append, H, IH.
  - simpl. now rewrite E, IH.
Qed.

(** A character that is absent stays absent, when the replacement is free
    of it. *)
Lemma occurs_replace_absent (d c : ascii) (by_ s : string) :
  occurs d by_ = false -> occurs d s = false ->
  occurs d (replace_all c by_ s) = false.
Proof.
  intros H. induction s as [|x s IH]; simpl; [reflexivity|].
  intros Hs. apply orb_false_iff in Hs. destruct Hs as [Hx Hs].
  destruct (Ascii.eqb x c).
  - now rewrite occurs_append, H, IH.
  - simpl. now rewrite Hx, IH.
Qed.

(** A character that is present stays present when another is replaced. *)
Lemma occurs_replace_keeps (d c : ascii) (by_ s : string) :
  Ascii.eqb d c = false -> occurs d s = true ->
  occurs d (replace_all c by_ s) = true.
Proof.
  intros Hdc. induction s as [|x s IH]; simpl; [discriminate|].
  intros Hs. apply orb_true_iff in Hs.
  destruct (Ascii.eqb x c) eqn:E.
  - rewrite occurs_append. apply orb_true_iff. right. apply IH.
    destruct Hs as [Hx|Hs]; [|exact Hs].
    apply Ascii.eqb_eq in Hx. apply Ascii.eqb_eq in E. subst.
    rewrite Ascii.eqb_refl in Hdc. discriminate.
  - simpl. destruct Hs as [->|Hs]; [reflexivity|].
    rewrite (IH Hs). apply orb_true_r.
Qed.

(** Replacing a character that is present brings in the characters of the
    replacement. *)
Lemma occurs_replace_brings (a c : ascii) (by_ s : string) :
  occurs a by_ = true -> occurs c s = true ->
  occurs a (replace_all c by_ s) = true.
Proof.
  intros Ha. induction s as [|x s IH]; simpl; [discriminate|].
  destruct (Ascii.eqb x c); simpl.
  - intros _. now rewrite occurs_append, Ha.
  - intros Hs. rewrite (IH Hs). apply orb_true_r.
Qed.

Lemma replace_all_absent (c : ascii) (by_ s : string) :
  occurs c s = false -> replace_all c by_ s = s.
Proof.
  induction s as [|x s IH]; simpl; [reflexivity|].
  intros H. apply orb_false_iff in H. destruct H as [-> H].
  now rewrite IH.
Qed.

Lemma plain_cases (s : string) :
  plain s \/ exists c, In c special_chars /\ occurs c s = true.
Proof.
  unfold plain. induction special_chars as [|c l IH].
  - left. intros c [].
  - destruct (occurs c s) eqn:E.
    + right. exists c. split; [now left|exact E].
    + destruct IH as [IH|[d [Hd Ho]]].
      * left. intros d [<-|Hd]; [exact E|now apply IH].
      * right. exists d. split; [now right|exact Ho].
Qed.

Lemma escape_plain (s : string) : plain s -> escape s = s.
Proof.
  intros P. unfold escape.
  rewrite (replace_all_absent amp), (replace_all_absent dquote),
    (replace_all_absent squote), (replace_all_absent lt),
    (replace_all_absent gt), (replace_all_absent slash),
    (replace_all_absent backslash), (replace_all_absent backtick);
    try reflexivity; apply P; simpl; tauto.
Qed.

(** Going through the replacements from the last to the first: the
    ampersand is kept until the replacement that brings it in, and the
    replaced character is kept by the replacements before that one. *)
Ltac amp_comes_in Ho :=
  first
    [ solve [ apply occurs_replace_brings; [reflexivity|];
              repeat (apply occurs_replace_keeps; [reflexivity|]);
              exact Ho ]
    | apply occurs_replace_keeps; [reflexivity|]; amp_comes_in Ho ].

(** Escaping a string that holds a special character brings in an
    ampersand. *)
Lemma escape_brings_amp (s : string) (c : ascii) :
  In c special_chars -> occurs c s = true -> occurs amp (escape s) = true.
Proof.
  intros Hc Ho. unfold escape. simpl in Hc.
  repeat (destruct Hc as [<-|Hc]); [..|contradiction]; amp_comes_in Ho.
Qed.

End Escape.

Lemma replace_all_grows (c : ascii) (by_ s : string) :
  1 < String.length by_ -> occurs c s = true ->
  String.length s < String.length (Validator.replace_all c by_ s).
Proof.
  intros Hby. induction s as [|x s IH]; simpl; [discriminate|].
  destruct (Ascii.eqb x c); simpl.
  - intros _. rewrite string_length_append.
    assert (L : 1 <= String.length by_) by lia.
    pose proof (replace_all_length c by_ s L). lia.
  - intros H. specialize (IH H). lia.
Qed.

Lemma escape_grows_on_amp (s : string) :
  occurs Validator.amp s = true ->
  String.length s < String.length (Validator.escape s).
Proof.
  intros H. unfold Validator.escape.
  eapply Nat.lt_le_trans;
    [apply (replace_all_grows Validator.amp "&amp;" s); [simpl; lia|exact H]|].
  do 7 (etransitivity; [|apply replace_all_length; simpl; lia]).
  reflexivity.
Qed.

Lemma escape_no_markup (s : string) (c : ascii) :
  In c special_chars -> c <> Validator.amp ->
  occurs c (Validator.escape s) = false.
Proof.
  intros Hc Hamp. unfold Validator.escape. simpl in Hc.
  destruct Hc as [<-|Hc]; [contradiction|].
  repeat (destruct Hc as [<-|Hc]); [..|contradiction];
    repeat first
      [ apply occurs_replace_same; reflexivity
      | apply occurs_replace_absent; [reflexivity|] ].
Qed.

Lemma escape_fixed_iff (s : string) : Validator.escape s = s <-> plain s.
Proof.
  split; [|apply escape_plain].
  intros E. destruct (plain_cases s) as [P|[c [Hc Ho]]]; [exact P|].
  exfalso. destruct (Ascii.eqb_spec c Validator.amp) as [->|Hne].
  - apply escape_grows_on_amp in Ho. rewrite E in Ho. lia.
  - pose proof (escape_no_markup s c Hc Hne) as A.
    rewrite E in A. congruence.
Qed.

(** X17.  What [escape] returns holds none of the characters double quote,
    single quote, less-than, greater-than, slash, backslash and backtick,
    whatever the input. *)
Theorem escape_output_is_safe (s : string) :
  occurs Validator.dquote (Validator.escape s) = false /\
  occurs Validator.squote (Validator.escape s) = false /\
  occurs Validator.lt (Validator.escape s) = false /\
  occurs Validator.gt (Validator.escape s) = false /\
  occurs Validator.slash (Validator.escape s) = false /\
  occurs Validator.backslash (Validator.escape s) = false /\
  occurs Validator.backtick (Validator.escape s) = false.
Proof.
  repeat split; apply escape_no_markup;
    solve [simpl; tauto | discriminate].
Qed.

(** X18.  [escape] leaves a string as it is exactly when the string holds
    none of the eight characters it rewrites.  It is not idempotent beyond
    that: escaping an escaped string changes it again unless the original
    held none of those characters, because every replacement brings in an
    ampersand. *)
Theorem escape_fixes_exactly_plain (s : string) :
  (Validator.escape s = s <-> plain s) /\
  (Validator.escape (Validator.escape s) = Validator.escape s <-> plain s).
Proof.
  split; [apply escape_fixed_iff|]. split.
  - intros E. apply escape_fixed_iff in E.
    destruct (plain_cases s) as [P|[c [Hc Ho]]]; [exact P|].
    pose proof (escape_brings_amp s c Hc Ho) as A.
    rewrite (E Validator.amp) in A; [discriminate|simpl; tauto].
  - intros P. now rewrite !(escape_plain s P).
Qed.

Lemma escape_fixes_exactly_plain_witness :
  plain "Hand tools" /\ Validator.escape "Hand tools" = "Hand tools".
Proof.
  assert (P : plain "Hand tools").
  { intros c Hc. simpl in Hc.
    repeat (destruct Hc as [<-|Hc]); [..|contradiction]; reflexivity. }
  split; [exact P|].
  exact (proj2 (proj1 (escape_fixes_exactly_plain "Hand tools")) P).
Defined.

(** X19.  A plain submission is stored as typed.  When name and
    description hold none of the characters [escape] rewrites, do not begin
    or end with whitespace and are between 1 and 100 characters long, and no
    stored Category has the name up to case, create appends one document
    that carries exactly the submitted name and description. *)
Theorem plain_submission_is_stored_verbatim (req : Request) (s : State) :
  plain (body_name (body req)) -> trimmed (body_name (body req)) ->
  plain (body_description (body req)) -> trimmed (body_description (body req)) ->
  1 <= String.length (body_name (body req)) <= 100 ->
  1 <= String.length (body_description (body req)) <= 100 ->
  named (body_name (body req)) s = [] ->
  passes_validation (body req) /\
  categories (category_create_post req s)
  = categories s ++
    [mkCategory (ObjectId.fresh (map cat_id (categories s)))
       (body_name (body req)) (body_description (body req))].
Proof.
  intros Pn Tn Pd Td Ln Ld Hnone.
  assert (Sn : body_name (sanitized (body req)) = body_name (body req)).
  { unfold sanitized, name_chain, required_chain. simpl.
    now rewrite (trim_fixed _ Tn), (escape_plain _ Pn). }
  assert (Sd : body_description (sanitized (body req))
               = body_description (body req)).
  { unfold sanitized, description_chain, required_chain. simpl.
    now rewrite (trim_fixed _ Td), (escape_plain _ Pd). }
  assert (V : passes_validation (body req)).
  { apply passes_validation_iff.
    rewrite (trim_fixed _ Tn), (trim_fixed _ Td). lia. }
  split; [exact V|].
  rewrite <- Sn in Hnone, Ln. rewrite <- Sd in Ld.
  rewrite (category_create_post_accepted req s V); [|lia|lia].
  cbv zeta. rewrite Hnone, Sn, Sd. reflexivity.
Qed.

Lemma plain_submission_is_stored_verbatim_witness :
  named "Tools" two_store = [] /\
  categories (category_create_post (request 0%N "Tools" "Hand tools") two_store)
  = [widgets; gadgets; mkCategory 3%N "Tools" "Hand tools"].
Proof.
  split; [reflexivity|].
  refine (proj2 (plain_submission_is_stored_verbatim
                   (request 0%N "Tools" "Hand tools") two_store
                   _ _ _ _ _ _ eq_refl)).
  - intros c Hc. simpl in Hc.
    repeat (destruct Hc as [<-|Hc]); [..|contradiction]; reflexivity.
  - split; reflexivity.
  - intros c Hc. simpl in Hc.
    repeat (destruct Hc as [<-|Hc]); [..|contradiction]; reflexivity.
  - split; reflexivity.
  - simpl. lia.
  - simpl. lia.
Defined.

(* ================================================================= *)
(** ** The virtual [url] *)

Lemma string_append_assoc (a b c : string) :
  ((a ++ b) ++ c = a ++ (b ++ c))%string.
Proof. induction a as [|x a IH]; simpl; [reflexivity|now rewrite IH]. Qed.

Lemma string_append_inv_head (a x y : string) :
  (a ++ x = a ++ y)%string -> x = y.
Proof.
  induction a as [|c a IH]; simpl; [tauto|].
  intros H. injection H as H. now apply IH.
Qed.

Lemma string_append_inv (a a' b b' : string) :
  String.length a = String.length a' ->
  (a ++ b = a' ++ b')%string -> a = a' /\ b = b'.
Proof.
  revert a'. induction a as [|c a IH]; intros [|c' a']; simpl;
    try discriminate.
  - tauto.
  - intros L H. injection L as L. injection H as -> H.
    destruct (IH _ L H) as [-> ->]. tauto.
Qed.

Lemma hex_digits_acc (k : nat) (n : N) (acc : string) :
  ObjectId.hex_digits k n acc
  = (ObjectId.hex_digits k n EmptyString ++ acc)%string.
Proof.
  revert n acc. induction k as [|k IH]; intros n acc; simpl; [reflexivity|].
  rewrite IH. rewrite (IH _ (String _ EmptyString)).
  now rewrite string_append_assoc.
Qed.

Lemma hex_digits_length (k : nat) (n : N) :
  String.length (ObjectId.hex_digits k n EmptyString) = k.
Proof.
  revert n. induction k as [|k IH]; intros n; simpl; [reflexivity|].
  rewrite hex_digits_acc, string_length_append, IH. simpl. lia.
Qed.

Lemma hex_digit_inj (a b : N) :
  (a < 16)%N -> (b < 16)%N ->
  ObjectId.hex_digit a = ObjectId.hex_digit b -> a = b.
Proof.
  intros Ha Hb E.
  destruct a as [|p]; [|do 4 (try (destruct p as [p|p|]; try lia))];
    (destruct b as [|q]; [|do 4 (try (destruct q as [q|q|]; try lia))]);
    solve [reflexivity | discriminate E | lia].
Qed.

Lemma hex_digits_inj (k : nat) (n m : N) :
  (n < 16 ^ N.of_nat k)%N -> (m < 16 ^ N.of_nat k)%N ->
  ObjectId.hex_digits k n EmptyString = ObjectId.hex_digits k m EmptyString ->
  n = m.
Proof.
  revert n m. induction k as [|k IH]; intros n m Hn Hm E.
  - simpl in Hn, Hm. lia.
  - rewrite Nat2N.inj_succ, N.pow_succ_r' in Hn, Hm.
    simpl in E.
    rewrite (hex_digits_acc k (n / 16)), (hex_digits_acc k (m / 16)) in E.
    apply string_append_inv in E; [|now rewrite !hex_digits_length].
    destruct E as [E1 E2]. injection E2 as E2.
    apply IH in E1;
      [|apply N.Div0.div_lt_upper_bound; lia
       |apply N.Div0.div_lt_upper_bound; lia].
    apply hex_digit_inj in E2; [|apply N.mod_lt; lia|apply N.mod_lt; lia].
    rewrite (N.div_mod n 16), (N.div_mod m 16) by lia.
    now rewrite E1, E2.
Qed.

(** X20.  The virtual [url] of a Category is the text [/category/]
    followed by the 24 hexadecimal digits of its id, 34 characters in all,
    and it identifies the Category: two Categories whose ids fit in 12 bytes
    have the same [url] only when they have the same id. *)
Theorem url_identifies_category (c1 c2 : CategoryDoc) :
  String.length (Category.url c1) = 34 /\
  ((cat_id c1 < 2 ^ 96)%N -> (cat_id c2 < 2 ^ 96)%N ->
   Category.url c1 = Category.url c2 -> cat_id c1 = cat_id c2).
Proof.
  unfold Category.url, ObjectId.toString. split.
  - rewrite string_length_append, hex_digits_length. reflexivity.
  - intros H1 H2 E. apply string_append_inv_head in E.
    apply (hex_digits_inj 24); [exact H1|exact H2|exact E].
Qed.

Lemma url_identifies_category_witness :
  (cat_id widgets < 2 ^ 96)%N /\
  (Category.url widgets = Category.url (mkCategory 1%N "Other" "x") ->
   cat_id widgets = 1%N).
Proof.
  assert (B : (1 < 2 ^ 96)%N) by reflexivity.
  split; [exact B|].
  exact (proj2 (url_identifies_category widgets (mkCategory 1%N "Other" "x"))
           B B).
Defined.

(* ================================================================= *)
(** ** Counting and comparing submissions *)

Lemma update_first_length (id : ObjectId.t) (upd : CategoryDoc)
  (l : list CategoryDoc) :
  List.length (Category.update_first id upd l) = List.length l.
Proof.
  rewrite <- (length_map cat_id), update_first_ids. apply length_map.
Qed.

Lemma remove_first_length (id : ObjectId.t) (l : list CategoryDoc) :
  List.length l =
  List.length (Category.remove_first id l) +
  match Category.lookup id l with Some _ => 1 | None => 0 end.
Proof.
  unfold Category.lookup. induction l as [|c l IH]; simpl; [reflexivity|].
  destruct (Category.has_id id c); simpl; [lia|]. rewrite IH at 1. lia.
Qed.

(** X21.  Each request changes the number of stored Categories by at most
    one.  An update never changes it; a create adds one or none; a
    delete-execution removes one exactly when the Category is stored and no
    Item references it, and none otherwise. *)
Theorem category_count_changes_by_one (req : Request) (s : State) :
  List.length (categories (category_update_post req s))
  = List.length (categories s) /\
  (List.length (categories (category_create_post req s))
   = List.length (categories s) \/
   List.length (categories (category_create_post req s))
   = S (List.length (categories s))) /\
  List.length (categories s)
  = List.length (categories (category_delete_post req s)) +
    match dependents (params_id req) s,
          Category.lookup (params_id req) (categories s) with
    | [], Some _ => 1
    | _, _ => 0
    end.
Proof.
  split; [|split].
  - destruct (category_update_post_outcomes req s) as [[c ->]|[upd [c ->]]];
      [reflexivity|].
    cbn [log_call set_categories categories]. apply update_first_length.
  - destruct (category_create_post_outcomes req s) as [[c ->]|[doc [-> _]]].
    + now left.
    + right. cbn [log_call set_categories categories].
      rewrite length_app. simpl. lia.
  - rewrite category_delete_post_run.
    destruct (dependents (params_id req) s).
    + cbn [log_call set_categories categories]. apply remove_first_length.
    + cbn [log_call categories]. lia.
Qed.

(** X22.  Create looks at the submission only through its trimmed fields:
    two requests whose names agree after trimming and whose descriptions
    agree after trimming are handled alike, whatever surrounding whitespace
    and whatever path id they carry. *)
Theorem category_create_post_ignores_padding (req1 req2 : Request) (s : State) :
  Validator.trim (body_name (body req1))
  = Validator.trim (body_name (body req2)) ->
  Validator.trim (body_description (body req1))
  = Validator.trim (body_description (body req2)) ->
  category_create_post req1 s = category_create_post req2 s.
Proof.
  intros Hn Hd.
  unfold category_create_post, run_chains, sanitized, validationResult,
    name_chain, description_chain, required_chain.
  cbn [fst snd]. rewrite Hn, Hd. reflexivity.
Qed.

Lemma category_create_post_ignores_padding_witness :
  category_create_post (request 5%N "  Widgets" "desc ") two_store
  = category_create_post (request 9%N "Widgets  " " desc") two_store.
Proof.
  apply category_create_post_ignores_padding; reflexivity.
Defined.

(* ================================================================= *)
(** ** What the handlers store *)

Lemma sanitized_markup_free (b : Body) :
  markup_free (body_name (sanitized b)) /\
  markup_free (body_description (sanitized b)).
Proof.
  unfold sanitized, name_chain, description_chain, required_chain. simpl.
  split; intros c Hc; apply escape_no_markup;
    solve [ simpl in *; tauto
          | simpl in Hc; repeat (destruct Hc as [<-|Hc]);
            [..|contradiction]; discriminate ].
Qed.

Lemma update_first_elements (id : ObjectId.t) (upd d : CategoryDoc)
  (l : list CategoryDoc) :
  In d (Category.update_first id upd l) ->
  In d l \/ (cat_name d = cat_name upd /\ cat_description d = cat_description upd).
Proof.
  induction l as [|c l IH]; simpl; [tauto|].
  destruct (Category.has_id id c); simpl.
  - intros [<-|H]; [right; split; reflexivity|left; now right].
  - intros [<-|H]; [left; now left|].
    destruct (IH H) as [H'|H']; [left; now right|now right].
Qed.

(** A stored document was stored before, or carries the sanitized fields
    of the request. *)
Lemma category_create_post_elements (req : Request) (s : State) (d : CategoryDoc) :
  In d (categories (category_create_post req s)) ->
  In d (categories s) \/
  (cat_name d = body_name (sanitized (body req)) /\
   cat_description d = body_description (sanitized (body req))).
Proof.
  destruct (validation_cases (body req)) as [V|NV].
  - rewrite (category_create_post_valid _ _ V). cbv zeta.
    destruct (named _ s); [|now left].
    match goal with
    | |- context [Category.invalid_paths ?doc] =>
        destruct (Category.invalid_paths doc)
    end; [|now left].
    cbn [log_call set_categories categories]. intros H.
    apply in_app_or in H. destruct H as [H|[<-|[]]]; [now left|].
    right. split; reflexivity.
  - rewrite (category_create_post_invalid _ _ NV). now left.
Qed.

Lemma category_update_post_elements (req : Request) (s : State) (d : CategoryDoc) :
  In d (categories (category_update_post req s)) ->
  In d (categories s) \/
  (cat_name d = body_name (sanitized (body req)) /\
   cat_description d = body_description (sanitized (body req))).
Proof.
  destruct (validation_cases (body req)) as [V|NV].
  - rewrite (category_update_post_valid _ _ V).
    destruct (Category.lookup (params_id req) (categories s)); [|now left].
    cbn [log_call set_categories categories]. intros H.
    apply update_first_elements in H. exact H.
  - rewrite (category_update_post_invalid _ _ NV). now left.
Qed.

Lemma category_delete_post_elements (req : Request) (s : State) (d : CategoryDoc) :
  In d (categories (category_delete_post req s)) -> In d (categories s).
Proof.
  rewrite category_delete_post_run.
  destruct (dependents (params_id req) s); [|tauto].
  cbn [log_call set_categories categories]. apply remove_first_in.
Qed.

(** X23.  No handler stores markup.  When no stored name or description
    holds a double quote, single quote, less-than, greater-than, slash,
    backslash or backtick, none does after a create, an update or a
    delete-execution, whatever the request: what create and update write has
    been through [escape]. *)
Theorem handlers_store_no_markup (req : Request) (s : State) :
  markup_free_store s ->
  markup_free_store (category_create_post req s) /\
  markup_free_store (category_update_post req s) /\
  markup_free_store (category_delete_post req s).
Proof.
  intros M. pose proof (sanitized_markup_free (body req)) as [Sn Sd].
  split; [|split]; intros d Hd.
  - apply category_create_post_elements in Hd.
    destruct Hd as [Hd|[-> ->]]; [now apply M|split; assumption].
  - apply category_update_post_elements in Hd.
    destruct Hd as [Hd|[-> ->]]; [now apply M|split; assumption].
  - apply category_delete_post_elements in Hd. now apply M.
Qed.

Lemma handlers_store_no_markup_witness :
  markup_free_store empty_store /\
  markup_free_store
    (category_create_post (request 0%N "<b>Tools</b>" "a/b") empty_store).
Proof.
  assert (M : markup_free_store empty_store) by (intros d []).
  split; [exact M|].
  exact (proj1 (handlers_store_no_markup
                  (request 0%N "<b>Tools</b>" "a/b") empty_store M)).
Defined.

(** X24.  Submitting the stored fields again.  For a stored Category whose
    name and description do not begin or end with whitespace, an update
    that submits exactly the stored name and description and passes
    validation leaves the document as it is if and only if neither field
    holds a character that [escape] rewrites; otherwise the fields are
    escaped once more. *)
Theorem category_update_post_resubmission (id : ObjectId.t) (s : State)
  (old : CategoryDoc) :
  Category.lookup id (categories s) = Some old ->
  trimmed (cat_name old) -> trimmed (cat_description old) ->
  passes_validation (mkBody (cat_name old) (cat_description old)) ->
  let req := mkRequest id (mkBody (cat_name old) (cat_description old)) in
  Category.lookup id (categories (category_update_post req s))
  = Some (mkCategory id (Validator.escape (cat_name old))
            (Validator.escape (cat_description old))) /\
  (Category.lookup id (categories (category_update_post req s)) = Some old <->
   plain (cat_name old) /\ plain (cat_description old)).
Proof.
  intros Hold Tn Td V req.
  assert (G : Category.lookup id (categories (category_update_post req s))
              = Some (mkCategory id (Validator.escape (cat_name old))
                        (Validator.escape (cat_description old)))).
  { rewrite (category_update_post_valid req s V). cbn [params_id req].
    rewrite Hold. cbn [log_call set_categories categories].
    rewrite (update_first_lookup _ _ _ _ Hold).
    rewrite (lookup_has_id _ _ _ Hold).
    unfold sanitized, name_chain, description_chain, required_chain.
    cbn [fst body body_name body_description cat_name cat_description req].
    now rewrite (trim_fixed _ Tn), (trim_fixed _ Td). }
  split; [exact G|]. rewrite G.
  pose proof (lookup_has_id _ _ _ Hold) as Hid.
  destruct old as [oid oname odesc]. cbn [cat_id cat_name cat_description] in *.
  subst oid. rewrite <- !escape_fixed_iff. split.
  - intros H. injection H as -> ->. split; reflexivity.
  - intros [-> ->]. reflexivity.
Qed.

Lemma category_update_post_resubmission_witness :
  Category.lookup 1%N [mkCategory 1%N "a &amp; b" "desc"]
  = Some (mkCategory 1%N "a &amp; b" "desc") /\
  Category.lookup 1%N
    (categories
       (category_update_post (request 1%N "a &amp; b" "desc")
          (mkState [mkCategory 1%N "a &amp; b" "desc"] [] [])))
  = Some (mkCategory 1%N "a &amp;amp; b" "desc").
Proof.
  split; [reflexivity|].
  refine (proj1 (category_update_post_resubmission 1%N
                   (mkState [mkCategory 1%N "a &amp; b" "desc"] [] [])
                   (mkCategory 1%N "a &amp; b" "desc")
                   eq_refl _ _ eq_refl)); split; reflexivity.
Defined.

(* ================================================================= *)
(** ** Bridge: the handlers by path text and the handlers by id *)

Lemma headersSent_fresh (s : State) :
  Http.headersSent (List.length (calls s)) s = false.
Proof. unfold Http.headersSent. now rewrite skipn_all. Qed.

Lemma headersSent_after (c : ResCall) (s : State) :
  Http.headersSent (List.length (calls s)) (log_call c s) = Http.is_send c.
Proof.
  unfold Http.headersSent, log_call. cbn [calls].
  rewrite skipn_app, skipn_all, Nat.sub_diag. simpl. apply orb_false_r.
Qed.

Ltac run_http :=
  unfold Http.asyncHandler, asyncHandler, Promise_all, Http.findById,
    Http.find_items, Http.find_items_select, Http.findByIdAndDelete,
    Http.update_and_redirect, Http.new_with_id, Http.cast_then,
    Http.render, Http.redirect, res_render, res_redirect, next, throw,
    Category.findById, Category.findByIdAndDelete, Category.findByIdAndUpdate,
    Category.new_with_id, Item.find, Item.find_select, run_chains, bind, ret;
  cbn [fst snd params_id body Http.params_id Http.body].

Section Bridge.

Variable req : Http.Request.
Variable s : State.

(** On a text that does not cast, the four handlers that query first pass
    the CastError to [next] and do nothing else. *)
Lemma http_uncast :
  ObjectId.cast (Http.params_id req) = None ->
  Http.category_detail req s
  = log_call (ResNext (CastError (Http.params_id req))) s /\
  Http.category_delete_get req s
  = log_call (ResNext (CastError (Http.params_id req))) s /\
  Http.category_delete_post req s
  = log_call (ResNext (CastError (Http.params_id req))) s /\
  Http.category_update_get req s
  = log_call (ResNext (CastError (Http.params_id req))) s.
Proof.
  intros E.
  unfold Http.category_detail, Http.category_delete_get,
    Http.category_delete_post, Http.category_update_get.
  run_http. rewrite E. repeat split.
Qed.

(** On a text that does not cast, update redisplays the form when
    validation fails and passes the CastError to [next] when it passes. *)
Lemma http_update_post_uncast :
  ObjectId.cast (Http.params_id req) = None ->
  Http.category_update_post req s =
  match validationResult (Http.body req) with
  | [] => log_call (ResNext (CastError (Http.params_id req))) s
  | errors =>
      log_call (ResRender "category_form"
        [("title", VString "Update Category");
         ("category",
          VDraft (body_name (sanitized (Http.body req)))
                 (body_description (sanitized (Http.body req))));
         ("errors", VErrors errors)]) s
  end.
Proof.
  intros E. unfold Http.category_update_post. run_http. rewrite E.
  destruct (validationResult (Http.body req)); cbn [isEmpty negb];
    [reflexivity|].
  cbn [Http.document_value]. now rewrite headersSent_fresh.
Qed.

Variable id : ObjectId.t.
Hypothesis cast_id : ObjectId.cast (Http.params_id req) = Some id.

Lemma http_category_detail_cast :
  Http.category_detail req s = category_detail (mkRequest id (Http.body req)) s.
Proof.
  unfold Http.category_detail, category_detail. run_http. rewrite cast_id.
  destruct (Category.lookup id (categories s)); [|reflexivity].
  now rewrite headersSent_fresh.
Qed.

Lemma http_category_update_get_cast :
  Http.category_update_get req s
  = category_update_get (mkRequest id (Http.body req)) s.
Proof.
  unfold Http.category_update_get, category_update_get. run_http.
  rewrite cast_id.
  destruct (Category.lookup id (categories s)); [|reflexivity].
  now rewrite headersSent_fresh.
Qed.

Lemma http_category_delete_post_cast :
  Http.category_delete_post req s
  = category_delete_post (mkRequest id (Http.body req)) s.
Proof.
  unfold Http.category_delete_post, category_delete_post. run_http.
  rewrite cast_id.
  destruct (filter (Item.in_category id) (items s)); cbn [List.length Nat.ltb Nat.leb].
  - unfold Http.headersSent, set_categories. cbn [calls].
    now rewrite skipn_all.
  - now rewrite headersSent_fresh.
Qed.

Lemma http_category_update_post_cast :
  Http.category_update_post req s
  = category_update_post (mkRequest id (Http.body req)) s.
Proof.
  unfold Http.category_update_post, category_update_post. run_http.
  rewrite cast_id.
  destruct (validationResult (Http.body req)); cbn [isEmpty negb].
  - destruct (Category.lookup id (categories s)) as [old|].
    + cbn [cat_id].
      destruct (ObjectId.eqb id (cat_id old)); [|reflexivity].
      unfold Http.headersSent, set_categories. cbn [calls].
      now rewrite skipn_all.
    + now rewrite headersSent_fresh.
  - cbn [Http.document_value]. now rewrite headersSent_fresh.
Qed.

(** The delete confirmation: for a stored Category it is the handler by
    id; for one that is not stored, the page rendered after the redirect
    cannot be delivered and [next] receives the error. *)
Lemma http_category_delete_get_cast :
  Http.category_delete_get req s =
  match Category.lookup id (categories s) with
  | Some _ => category_delete_get (mkRequest id (Http.body req)) s
  | None =>
      log_call (ResNext HeadersSentError)
        (category_delete_get (mkRequest id (Http.body req)) s)
  end.
Proof.
  unfold Http.category_delete_get, category_delete_get. run_http.
  rewrite cast_id.
  destruct (Category.lookup id (categories s)).
  - now rewrite headersSent_fresh.
  - rewrite headersSent_fresh, headersSent_after. reflexivity.
Qed.

End Bridge.

(* ================================================================= *)
(** ** The handlers on every path text *)

(** C7, as stated, fails: for the path text [xyz] no Category has the
    requested id (none is stored at all), yet the detail handler does not
    answer with the 404 error: the lookup rejects and [next] receives the
    CastError, which carries no status. *)
Lemma category_detail_malformed_id_counterexample :
  ObjectId.cast path_xyz = None /\
  categories empty_store = [] /\
  calls (Http.category_detail (http_get path_xyz) empty_store)
  = [ResNext (CastError path_xyz)] /\
  calls (Http.category_detail (http_get path_xyz) empty_store)
  <> [ResNext (HttpError "Category not found" 404)].
Proof. repeat split. discriminate. Qed.

(** C7, amended.  The detail handler passes the error "Category not found"
    with status 404 to [next] exactly when the requested id is well formed
    and no Category has it.  When the id is well formed and a Category has
    it, the detail view is rendered with that Category and the selected
    fields of the Items whose category is that id, which are exactly the
    stored Items with that category.  When the id is not well formed, the
    lookup fails and its error, which carries no 404, is passed to [next].
    The store is only read. *)
Theorem category_detail_by_path (req : Http.Request) (s : State) :
  let s' := Http.category_detail req s in
  same_store s s' /\
  (responds s s' [ResNext (HttpError "Category not found" 404)] <->
   exists id, ObjectId.cast (Http.params_id req) = Some id /\
              Category.lookup id (categories s) = None) /\
  (forall id c,
     ObjectId.cast (Http.params_id req) = Some id ->
     Category.lookup id (categories s) = Some c ->
     responds s s'
       [ResRender "category_detail"
          [("title", VString "Category Detail");
           ("category", VCategory c);
           ("category_items", VItemFields (map Item.select (dependents id s)))]]) /\
  (ObjectId.cast (Http.params_id req) = None ->
   responds s s' [ResNext (CastError (Http.params_id req))]) /\
  (forall id i, In i (dependents id s) <-> In i (items s) /\ item_category i = id).
Proof.
  intros s'. subst s'.
  destruct (ObjectId.cast (Http.params_id req)) as [id|] eqn:E.
  - rewrite (http_category_detail_cast req s id E).
    destruct (category_detail_not_found_iff (mkRequest id (Http.body req)) s)
      as [H1 [H2 [H3 _]]].
    cbn [params_id] in H2, H3.
    split; [exact H1|]. split; [|split; [|split]].
    + rewrite H2. split.
      * intros H. exists id. split; [reflexivity|exact H].
      * intros [id' [Hid H]]. now injection Hid as <-.
    + intros id' c Hid Hc. injection Hid as <-. now apply H3.
    + discriminate.
    + intros id' i. apply dependents_spec.
  - destruct (http_uncast req s E) as [-> _].
    split; [apply same_store_log_call|]. split; [|split; [|split]].
    + split.
      * intros H.
        pose proof (responds_inj _ _ _ _ H (responds_log_call _ _)) as D.
        discriminate D.
      * intros [id [Hid _]]. discriminate Hid.
    + discriminate.
    + intros _. apply responds_log_call.
    + intros id' i. apply dependents_spec.
Qed.

Lemma category_detail_by_path_witness :
  ObjectId.cast path_1 = Some 1%N /\
  Category.lookup 1%N (categories stocked_store) = Some widgets /\
  responds stocked_store (Http.category_detail (http_get path_1) stocked_store)
    [ResRender "category_detail"
       [("title", VString "Category Detail");
        ("category", VCategory widgets);
        ("category_items", VItemFields [Item.select bolt])]].
Proof.
  split; [reflexivity|]. split; [reflexivity|].
  exact (proj1 (proj2 (proj2
    (category_detail_by_path (http_get path_1) stocked_store)))
    1%N widgets eq_refl eq_refl).
Defined.

(** C9, as stated, fails: an update with valid input for the path text
    [xyz], which matches no stored Category, is not answered with a
    redirect: the update query rejects and [next] receives the CastError. *)
Lemma category_update_post_malformed_id_counterexample :
  passes_validation (mkBody "Gadgets" "things") /\
  ObjectId.cast path_xyz = None /\
  calls (Http.category_update_post (http_post path_xyz "Gadgets" "things")
           bare_store)
  = [ResNext (CastError path_xyz)].
Proof. repeat split. Qed.

(** C9, amended.  An update that passes validation.  When the path id is
    well formed and no stored Category has it, both collections are left as
    they were and the handler's one call is the redirect to the detail URL
    of that id.  When the path id is not well formed, both collections are
    left as they were as well, and the handler's one call passes the
    query's error to [next]. *)
Theorem category_update_post_absent_by_path (req : Http.Request) (s : State) :
  passes_validation (Http.body req) ->
  let s' := Http.category_update_post req s in
  (forall id,
     ObjectId.cast (Http.params_id req) = Some id ->
     Category.lookup id (categories s) = None ->
     same_store s s' /\
     responds s s' [ResRedirect ("/category/" ++ ObjectId.toString id)]) /\
  (ObjectId.cast (Http.params_id req) = None ->
   same_store s s' /\
   responds s s' [ResNext (CastError (Http.params_id req))]).
Proof.
  intros V s'. subst s'. split.
  - intros id E Habs. rewrite (http_category_update_post_cast req s id E).
    exact (category_update_post_absent (mkRequest id (Http.body req)) s V Habs).
  - intros E. rewrite (http_update_post_uncast req s E), V.
    split; [apply same_store_log_call|apply responds_log_call].
Qed.

Lemma category_update_post_absent_by_path_witness :
  passes_validation (mkBody "Gadgets" "things") /\
  ObjectId.cast path_7 = Some 7%N /\
  Category.lookup 7%N (categories bare_store) = None /\
  calls (Http.category_update_post (http_post path_7 "Gadgets" "things")
           bare_store)
  = [ResRedirect "/category/000000000000000000000007"].
Proof.
  split; [reflexivity|]. split; [reflexivity|]. split; [reflexivity|].
  exact (proj2 (proj1
    (category_update_post_absent_by_path
       (http_post path_7 "Gadgets" "things") bare_store eq_refl)
    7%N eq_refl eq_refl)).
Defined.

(** C10, as stated, fails: a delete-execution for the path text [xyz],
    which matches no stored Category and which no Item references, does not
    complete with a redirect: the lookup rejects and [next] receives the
    CastError. *)
Lemma category_delete_post_malformed_id_counterexample :
  ObjectId.cast path_xyz = None /\
  items bare_store = [] /\
  calls (Http.category_delete_post (http_get path_xyz) bare_store)
  = [ResNext (CastError path_xyz)].
Proof. repeat split. Qed.

(** C10, amended.  Delete-execution.  When the path id is well formed, no
    stored Category has it and no Item references it, both collections are
    left as they were and the caller is redirected to the listing.  When
    the path id is not well formed, both collections are left as they were
    and the lookup's error is passed to [next].  Whatever the request, the
    handler makes one call, and that call never passes an error that
    carries a status, so never a NotFound. *)
Theorem category_delete_post_absent_by_path (req : Http.Request) (s : State) :
  let s' := Http.category_delete_post req s in
  (forall id,
     ObjectId.cast (Http.params_id req) = Some id ->
     Category.lookup id (categories s) = None ->
     dependents id s = [] ->
     same_store s s' /\ responds s s' [ResRedirect "/categories"]) /\
  (ObjectId.cast (Http.params_id req) = None ->
   same_store s s' /\
   responds s s' [ResNext (CastError (Http.params_id req))]) /\
  (exists c,
     responds s s' [c] /\
     forall message status, c <> ResNext (HttpError message status)).
Proof.
  intros s'. subst s'.
  destruct (ObjectId.cast (Http.params_id req)) as [id|] eqn:E.
  - rewrite (http_category_delete_post_cast req s id E).
    destruct (category_delete_post_absent (mkRequest id (Http.body req)) s)
      as [H1 [c [H2 H3]]].
    split; [|split].
    + intros id' Hid. injection Hid as <-. exact H1.
    + discriminate.
    + exists c. split; [exact H2|]. intros message status. apply H3.
  - destruct (http_uncast req s E) as [_ [_ [-> _]]].
    split; [discriminate|]. split.
    + intros _. split; [apply same_store_log_call|apply responds_log_call].
    + eexists. split; [apply responds_log_call|discriminate].
Qed.

Lemma category_delete_post_absent_by_path_witness :
  ObjectId.cast path_7 = Some 7%N /\
  Category.lookup 7%N (categories bare_store) = None /\
  dependents 7%N bare_store = [] /\
  calls (Http.category_delete_post (http_get path_7) bare_store)
  = [ResRedirect "/categories"].
Proof.
  split; [reflexivity|]. split; [reflexivity|]. split; [reflexivity|].
  exact (proj2 (proj1
    (category_delete_post_absent_by_path (http_get path_7) bare_store)
    7%N eq_refl eq_refl eq_refl)).
Defined.

(** X1.  The update form passes the error "Category not found" with status
    404 to [next] exactly when the requested id is well formed and no
    Category has it, and renders the form with a Category exactly when the
    id is well formed and that Category is stored under it.  When the id is
    not well formed, the lookup's error is passed to [next] instead. *)
Theorem category_update_get_by_path (req : Http.Request) (s : State) :
  let s' := Http.category_update_get req s in
  (responds s s' [ResNext (HttpError "Category not found" 404)] <->
   exists id, ObjectId.cast (Http.params_id req) = Some id /\
              Category.lookup id (categories s) = None) /\
  (forall c,
     responds s s'
       [ResRender "category_form"
          [("title", VString "Update Category"); ("category", VCategory c)]] <->
     exists id, ObjectId.cast (Http.params_id req) = Some id /\
                Category.lookup id (categories s) = Some c) /\
  (ObjectId.cast (Http.params_id req) = None ->
   responds s s' [ResNext (CastError (Http.params_id req))]).
Proof.
  intros s'. subst s'.
  destruct (ObjectId.cast (Http.params_id req)) as [id|] eqn:E.
  - rewrite (http_category_update_get_cast req s id E).
    destruct (category_update_get_not_found_iff
                (mkRequest id (Http.body req)) s) as [H1 H2].
    cbn [params_id] in H1, H2. split; [|split].
    + rewrite H1. split.
      * intros H. exists id. split; [reflexivity|exact H].
      * intros [id' [Hid H]]. now injection Hid as <-.
    + intros c. rewrite H2. split.
      * intros H. exists id. split; [reflexivity|exact H].
      * intros [id' [Hid H]]. now injection Hid as <-.
    + discriminate.
  - destruct (http_uncast req s E) as [_ [_ [_ ->]]]. split; [|split].
    + split.
      * intros H.
        pose proof (responds_inj _ _ _ _ H (responds_log_call _ _)) as D.
        discriminate D.
      * intros [id [Hid _]]. discriminate Hid.
    + intros c. split.
      * intros H.
        pose proof (responds_inj _ _ _ _ H (responds_log_call _ _)) as D.
        discriminate D.
      * intros [id [Hid _]]. discriminate Hid.
    + intros _. apply responds_log_call.
Qed.

Lemma category_update_get_by_path_witness :
  ObjectId.cast path_xyz = None /\
  responds two_store (Http.category_update_get (http_get path_xyz) two_store)
    [ResNext (CastError path_xyz)].
Proof.
  split; [reflexivity|].
  exact (proj2 (proj2
    (category_update_get_by_path (http_get path_xyz) two_store)) eq_refl).
Defined.

(** X3.  Every handler answers every request.  The home page, the list, the
    create form and create make exactly one call on [res] or [next]; so do
    detail, delete-execution, the update form and update, whatever the path
    text.  The delete confirmation makes one call when the id is not well
    formed or the Category is stored, and three when the id is well formed
    and no Category has it: the redirect, the render, and the error of
    rendering on a response already sent. *)
Theorem handlers_respond_by_path (req0 : Request) (req : Http.Request) (s : State) :
  responds_once s (index req0 s) /\
  responds_once s (category_list req0 s) /\
  responds_once s (category_create_get req0 s) /\
  responds_once s (category_create_post req0 s) /\
  responds_once s (Http.category_detail req s) /\
  responds_once s (Http.category_delete_post req s) /\
  responds_once s (Http.category_update_get req s) /\
  responds_once s (Http.category_update_post req s) /\
  (exists cs,
     responds s (Http.category_delete_get req s) cs /\
     List.length cs =
     match ObjectId.cast (Http.params_id req) with
     | None => 1
     | Some id =>
         match Category.lookup id (categories s) with
         | Some _ => 1
         | None => 3
         end
     end) /\
  (forall id,
     ObjectId.cast (Http.params_id req) = Some id ->
     Category.lookup id (categories s) = None ->
     responds s (Http.category_delete_get req s)
       [ResRedirect "/categories";
        ResRender "category_delete"
          [("title", VString "Delete Category");
           ("category", VNull);
           ("category_items", VItems (dependents id s))];
        ResNext HeadersSentError]).
Proof.
  destruct (handlers_respond_once req0 s)
    as [H1 [H2 [_ [H4 [H5 _]]]]].
  split; [exact H1|]. split; [exact H2|]. split; [exact H4|].
  split; [exact H5|].
  destruct (ObjectId.cast (Http.params_id req)) as [id|] eqn:E.
  - rewrite (http_category_detail_cast req s id E),
      (http_category_delete_post_cast req s id E),
      (http_category_update_get_cast req s id E),
      (http_category_update_post_cast req s id E),
      (http_category_delete_get_cast req s id E).
    destruct (handlers_respond_once (mkRequest id (Http.body req)) s)
      as [_ [_ [G3 [_ [_ [G6 [G7 [G8 _]]]]]]]].
    split; [exact G3|]. split; [exact G6|]. split; [exact G7|].
    split; [exact G8|].
    rewrite category_delete_get_run. cbn [params_id].
    destruct (Category.lookup id (categories s)) eqn:L.
    + split.
      * eexists. split; [apply responds_log_call|reflexivity].
      * intros id' Hid Hn. injection Hid as <-. congruence.
    + split.
      * eexists [_; _; _]. split; [|reflexivity].
        unfold responds. cbn [log_call calls]. now rewrite <- !app_assoc.
      * intros id' Hid _. injection Hid as <-.
        unfold responds. cbn [log_call calls]. now rewrite <- !app_assoc.
  - destruct (http_uncast req s E) as [-> [-> [-> ->]]].
    rewrite (http_update_post_uncast req s E).
    repeat split; try (eexists; apply responds_log_call).
    + destruct (validationResult (Http.body req));
        eexists; apply responds_log_call.
    + eexists. split; [apply responds_log_call|reflexivity].
    + discriminate.
Qed.

Lemma handlers_respond_by_path_witness :
  ObjectId.cast path_7 = Some 7%N /\
  Category.lookup 7%N (categories bare_store) = None /\
  calls (Http.category_delete_get (http_get path_7) bare_store)
  = [ResRedirect "/categories";
     ResRender "category_delete"
       [("title", VString "Delete Category");
        ("category", VNull);
        ("category_items", VItems [])];
     ResNext HeadersSentError].
Proof.
  split; [reflexivity|]. split; [reflexivity|].
  exact (proj2 (proj2 (proj2 (proj2 (proj2 (proj2 (proj2 (proj2 (proj2
    (handlers_respond_by_path (get_request 0%N) (http_get path_7)
       bare_store)))))))))
    7%N eq_refl eq_refl).
Defined.

(** X10.  A deleted Category is gone for the other handlers.  After a
    delete-execution for a well-formed id that no Item references, the
    detail page and the update form for the same path both answer with the
    error "Category not found", status 404. *)
Theorem deleted_category_is_not_found_by_path
  (req : Http.Request) (s : State) (id : ObjectId.t) :
  unique_ids s ->
  ObjectId.cast (Http.params_id req) = Some id ->
  dependents id s = [] ->
  let s1 := Http.category_delete_post req s in
  responds s1 (Http.category_detail req s1)
    [ResNext (HttpError "Category not found" 404)] /\
  responds s1 (Http.category_update_get req s1)
    [ResNext (HttpError "Category not found" 404)].
Proof.
  intros U E D s1.
  rewrite (http_category_detail_cast req s1 id E),
    (http_category_update_get_cast req s1 id E).
  unfold s1. rewrite (http_category_delete_post_cast req s id E).
  exact (deleted_category_is_not_found (mkRequest id (Http.body req)) s U D).
Qed.

Lemma deleted_category_is_not_found_by_path_witness :
  unique_ids bare_store /\
  ObjectId.cast path_1 = Some 1%N /\
  dependents 1%N bare_store = [] /\
  calls (Http.category_detail (http_get path_1)
           (Http.category_delete_post (http_get path_1) bare_store))
  = [ResRedirect "/categories";
     ResNext (HttpError "Category not found" 404)].
Proof.
  assert (U : unique_ids bare_store).
  { unfold unique_ids. simpl. repeat constructor. intros []. }
  split; [exact U|]. split; [reflexivity|]. split; [reflexivity|].
  exact (proj1 (deleted_category_is_not_found_by_path
                  (http_get path_1) bare_store 1%N U eq_refl eq_refl)).
Defined.

(* ================================================================= *)
(** ** From a [url] back to the Category *)

Lemma hex_value_digit (d : N) :
  (d < 16)%N -> ObjectId.hex_value (ObjectId.hex_digit d) = Some d.
Proof.
  intros H.
  destruct d as [|p]; [|do 4 (try (destruct p as [p|p|]; try lia))];
    reflexivity.
Qed.

Lemma parse_hex_append (a b : string) (acc : N) :
  ObjectId.parse_hex (a ++ b) acc =
  match ObjectId.parse_hex a acc with
  | Some v => ObjectId.parse_hex b v
  | None => None
  end.
Proof.
  revert acc. induction a as [|c a IH]; intros acc; simpl; [reflexivity|].
  destruct (ObjectId.hex_value c); [apply IH|reflexivity].
Qed.

Lemma parse_hex_digits (k : nat) (n acc : N) :
  (n < 16 ^ N.of_nat k)%N ->
  ObjectId.parse_hex (ObjectId.hex_digits k n EmptyString) acc
  = Some (acc * 16 ^ N.of_nat k + n)%N.
Proof.
  revert n acc. induction k as [|k IH]; intros n acc Hn.
  - simpl in *. f_equal. lia.
  - rewrite Nat2N.inj_succ, N.pow_succ_r' in *.
    cbn [ObjectId.hex_digits]. rewrite hex_digits_acc, parse_hex_append.
    rewrite IH by (apply N.Div0.div_lt_upper_bound; lia).
    cbn [ObjectId.parse_hex].
    rewrite hex_value_digit by (apply N.mod_lt; lia).
    f_equal. rewrite (N.div_mod n 16) at 3 by lia. lia.
Qed.

(** X25.  A [url] leads back to its Category.  For a Category whose id fits
    in 12 bytes, the text that follows [/category/] in its [url] casts to
    its id; so when the Category is stored, the detail handler given that
    text renders it. *)
Theorem url_leads_back (c : CategoryDoc) (s : State) :
  (cat_id c < 2 ^ 96)%N ->
  ObjectId.cast (ObjectId.toString (cat_id c)) = Some (cat_id c) /\
  (Category.lookup (cat_id c) (categories s) = Some c ->
   responds s
     (Http.category_detail (http_get (ObjectId.toString (cat_id c))) s)
     [ResRender "category_detail"
        [("title", VString "Category Detail");
         ("category", VCategory c);
         ("category_items",
          VItemFields (map Item.select (dependents (cat_id c) s)))]]).
Proof.
  intros B.
  assert (E : ObjectId.cast (ObjectId.toString (cat_id c)) = Some (cat_id c)).
  { unfold ObjectId.cast, ObjectId.toString.
    rewrite hex_digits_length. cbn [Nat.eqb].
    rewrite (parse_hex_digits 24 (cat_id c) 0 B). f_equal. }
  split; [exact E|]. intros L.
  rewrite (http_category_detail_cast
             (http_get (ObjectId.toString (cat_id c))) s (cat_id c) E),
    category_detail_run.
  cbn [params_id]. rewrite L. apply responds_log_call.
Qed.

Lemma url_leads_back_witness :
  (cat_id gadgets < 2 ^ 96)%N /\
  Category.lookup 2%N (categories two_store) = Some gadgets /\
  calls (Http.category_detail
           (http_get "000000000000000000000002") two_store)
  = [ResRender "category_detail"
       [("title", VString "Category Detail");
        ("category", VCategory gadgets);
        ("category_items", VItemFields [])]].
Proof.
  assert (B : (2 < 2 ^ 96)%N) by reflexivity.
  split; [exact B|]. split; [reflexivity|].
  exact (proj2 (url_leads_back gadgets two_store B) eq_refl).
Defined.
